(** * MetaWards: the ward builder, the staged plugin dispatch and the
      additional-seed kernel, embedded from the Python sources.

    Python objects mutated in place are modelled by explicit state passing:
    a method [m(self, args)] becomes [m args self : result Ward], returning
    the new state of [self] or the exception that escaped the call.
    Python [int] is [Z]; Python [float] is idealised as an exact rational
    [Q] (floating-point rounding is not modelled); a [dict] is a [gmap]. *)

From Stdlib Require Import ZArith QArith Qabs Lia Lqa.
From stdpp Require Import base gmap strings list fin_maps sorting.

Local Open Scope Z_scope.

(** ** Exceptions and the error monad *)

Inductive exn : Type :=
  | ValueError | KeyError | TypeError | AssertionError
  | AttributeError | IndexError
  | MissingStyle.

Inductive result (A : Type) : Type :=
  | Ok (a : A)
  | Raise (e : exn).
Arguments Ok {A} a.
Arguments Raise {A} e.

#[global] Instance result_ret : MRet result := fun _ a => Ok a.
#[global] Instance result_bind : MBind result := fun _ _ f m =>
  match m with Ok a => f a | Raise e => Raise e end.

Definition is_ok {A} (r : result A) : bool :=
  match r with Ok _ => true | Raise _ => false end.

(** ** Rational comparisons used for the float tests *)

Definition Qltb (x y : Q) : bool := negb (Qle_bool y x).

(** [tiny = 1e-10], the tolerance constant of [_ward.py]. *)
Definition tiny : Q := 1 # 10000000000.

(** ** WardInfo *)

(** Modelled from the spec: [_wardinfo.py] is not part of the sources at
    hand; the spec describes a WardInfo as a record (name, code, authority,
    region), and [Ward.__init__] assigns exactly these four attributes.
    [is_null] holds of the default-constructed record. *)
Record WardInfo : Type := mkWardInfo {
  name : string;
  code : string;
  authority : string;
  region : string
}.

#[global] Instance WardInfo_eq_dec : EqDecision WardInfo.
Proof. solve_decision. Defined.

#[global] Instance WardInfo_countable : Countable WardInfo.
Proof.
  refine (inj_countable'
            (fun i => (name i, code i, authority i, region i))
            (fun t => match t with (n, c, a, r) => mkWardInfo n c a r end) _).
  by intros [].
Defined.

Definition WardInfo_null : WardInfo := mkWardInfo "" "" "" "".

Definition WardInfo_is_null (i : WardInfo) : bool :=
  bool_decide (i = WardInfo_null).

(** ** Keys of the link dictionaries: an [int] id or an unresolved WardInfo *)

Inductive Dest : Type :=
  | DInt (z : Z)
  | DInfo (i : WardInfo).

#[global] Instance Dest_eq_dec : EqDecision Dest.
Proof. solve_decision. Defined.

#[global] Instance Dest_countable : Countable Dest.
Proof.
  refine (inj_countable'
            (fun d => match d with DInt z => inl z | DInfo i => inr i end)
            (fun s => match s with inl z => DInt z | inr i => DInfo i end) _).
  by intros [].
Defined.

(** [isinstance(key, int)] *)
Definition is_int (d : Dest) : bool :=
  match d with DInt _ => true | DInfo _ => false end.

(** ** Ward *)

(** The [_pos] dictionary: empty, [{"x", "y"}] or [{"lat", "long"}]. *)
Inductive Position : Type :=
  | PosNone
  | PosXY (x y : Q)
  | PosLatLong (lat long : Q).

Record Ward : Type := mkWard {
  _id : option Z;
  _info : WardInfo;
  _workers : gmap Dest Z;
  _players : gmap Dest Q;
  _player_total : Q;
  _num_workers : Z;
  _num_players : Z;
  _pos : Position;
  _auto_assign_players : bool
}.

Definition set_workers (f : gmap Dest Z → gmap Dest Z) (w : Ward) : Ward :=
  mkWard (_id w) (_info w) (f (_workers w)) (_players w) (_player_total w)
         (_num_workers w) (_num_players w) (_pos w) (_auto_assign_players w).

Definition set_players (f : gmap Dest Q → gmap Dest Q) (w : Ward) : Ward :=
  mkWard (_id w) (_info w) (_workers w) (f (_players w)) (_player_total w)
         (_num_workers w) (_num_players w) (_pos w) (_auto_assign_players w).

Definition set_player_total (q : Q) (w : Ward) : Ward :=
  mkWard (_id w) (_info w) (_workers w) (_players w) q
         (_num_workers w) (_num_players w) (_pos w) (_auto_assign_players w).

Definition set_num_workers_field (n : Z) (w : Ward) : Ward :=
  mkWard (_id w) (_info w) (_workers w) (_players w) (_player_total w)
         n (_num_players w) (_pos w) (_auto_assign_players w).

Definition set_num_players_field (n : Z) (w : Ward) : Ward :=
  mkWard (_id w) (_info w) (_workers w) (_players w) (_player_total w)
         (_num_workers w) n (_pos w) (_auto_assign_players w).

Definition set_pos_field (p : Position) (w : Ward) : Ward :=
  mkWard (_id w) (_info w) (_workers w) (_players w) (_player_total w)
         (_num_workers w) (_num_players w) p (_auto_assign_players w).

Definition set_auto_field (b : bool) (w : Ward) : Ward :=
  mkWard (_id w) (_info w) (_workers w) (_players w) (_player_total w)
         (_num_workers w) (_num_players w) (_pos w) b.

(** [_as_positive_integer] on an argument that already is an [int]. *)
Definition _as_positive_integer (number : Z) (zero_allowed : bool) : result Z :=
  if bool_decide (number < 0) then Raise ValueError
  else if bool_decide (number = 0) && negb zero_allowed then Raise ValueError
  else Ok number.

(** [_as_positive_float] on an argument that already is a [float]. *)
Definition _as_positive_float (number : Q) : result Q :=
  if Qltb number 0 then Raise ValueError else Ok number.

(** [Ward.__init__] for a ward that is not null (the null ward, with no id
    and a null info, returns before any link attribute is created). The
    keyword arguments name/code/authority/region are folded into [info]. *)
Definition Ward_init (id : option Z) (info : WardInfo)
    (auto_assign_players : bool) : result Ward :=
  id' ← match id with
        | None => Ok None
        | Some i => i' ← _as_positive_integer i false; Ok (Some i')
        end;
  Ok (mkWard id' info ∅ ∅ 1 0 0 PosNone auto_assign_players).

(** The [destination] argument of the link methods. *)
Inductive DestArg : Type :=
  | ArgNone
  | ArgInt (z : Z)
  | ArgInfo (i : WardInfo)
  | ArgWard (w : Ward).

Definition _resolve_destination (self : Ward) (destination : DestArg)
    : result Dest :=
  d ← match destination with
      | ArgNone =>
          match _id self with
          | None =>
              if WardInfo_is_null (_info self) then Raise ValueError
              else Ok (DInfo (_info self))
          | Some i => Ok (DInt i)
          end
      | ArgWard other =>
          match _id other with
          | None =>
              match _id self with
              | Some i =>
                  if bool_decide (_info other = _info self)
                  then Ok (DInt i) else Ok (DInfo (_info other))
              | None => Ok (DInfo (_info other))
              end
          | Some oid =>
              if bool_decide (Some oid = _id self)
                 && negb (bool_decide (_info self = _info other))
              then Raise ValueError
              else Ok (DInt oid)
          end
      | ArgInt z => Ok (DInt z)
      | ArgInfo i => Ok (DInfo i)
      end;
  match d with
  | DInfo i => Ok (DInfo i)
  | DInt z => z' ← _as_positive_integer z false; Ok (DInt z')
  end.

(** [self._workers -= number]: a [dict] has neither [__isub__] nor
    [__sub__] against an [int], so the statement raises [TypeError]. *)
Definition dict_isub_int (d : gmap Dest Z) (number : Z)
    : result (gmap Dest Z) := Raise TypeError.

Definition add_workers (number : Z) (destination : DestArg) (self : Ward)
    : result Ward :=
  destination ← _resolve_destination self destination;
  number ← _as_positive_integer number true;
  let cur := default 0 (_workers self !! destination) in
  Ok (set_num_workers_field (_num_workers self + number)
        (set_workers (<[destination := cur + number]>) self)).

Definition subtract_workers (number : Z) (destination : DestArg)
    (self : Ward) : result Ward :=
  destination ← _resolve_destination self destination;
  number ← _as_positive_integer number true;
  match _workers self !! destination with
  | None => Ok self
  | Some cur =>
      if bool_decide (number >= cur) then
        Ok (set_workers (delete destination)
              (set_num_workers_field (_num_workers self - cur) self))
      else
        ws ← dict_isub_int (_workers self) number;
        Ok (set_num_workers_field (_num_workers self - number)
              (set_workers (fun _ => ws) self))
  end.

Definition add_player_weight (weight : Q) (destination : DestArg)
    (self : Ward) : result Ward :=
  weight ← _as_positive_float weight;
  destination ← _resolve_destination self destination;
  if Qltb weight tiny then Ok self
  else
    let weight :=
      if Qltb (Qabs (weight - _player_total self)) tiny
      then _player_total self else weight in
    if Qltb (_player_total self) weight then Raise ValueError
    else
      let cur := default 0%Q (_players self !! destination) in
      let total := (_player_total self - weight)%Q in
      Ok (set_player_total (if Qltb total tiny then 0%Q else total)
            (set_players (<[destination := (cur + weight)%Q]>) self)).

Definition subtract_player_weight (weight : Q) (destination : DestArg)
    (self : Ward) : result Ward :=
  weight ← _as_positive_float weight;
  destination ← _resolve_destination self destination;
  if Qltb weight tiny then Ok self
  else
    match _players self !! destination with
    | None => Ok self
    | Some cur =>
        let weight := if Qltb cur weight then cur else weight in
        let total := (_player_total self + weight)%Q in
        Ok (set_player_total
              (if Qltb (Qabs (total - 1)) tiny then 1%Q else total)
              (set_players (delete destination) self))
    end.

(** [list(d.keys())] and [d.values()] *)
Definition dict_keys {V} (d : gmap Dest V) : list Dest :=
  fst <$> map_to_list d.

Definition dict_values {V} (d : gmap Dest V) : list V :=
  snd <$> map_to_list d.

(** [sum(d.values())], accumulated from [0] as the built-in does. The
    order of the values is that of the map, not the insertion order of
    the dictionary; exact sums do not depend on it. *)
Definition sum_Z (m : gmap Dest Z) : Z :=
  foldl Z.add 0 (dict_values m).

Definition sum_Q (m : gmap Dest Q) : Q :=
  foldl Qplus 0%Q (dict_values m).

(** [1e-6], the tolerance of [assert_sane]. *)
Definition sane_tol : Q := 1 # 1000000.

Definition assert_sane (self : Ward) : result unit :=
  if negb (match _id self with Some i => bool_decide (i > 0) | None => false end)
  then Raise AssertionError
  else
    let t := (sum_Q (_players self) + _player_total self)%Q in
    if Qltb sane_tol (Qabs (t - 1)) then Raise AssertionError
    else
      let t := sum_Z (_workers self) in
      if Qltb sane_tol (Qabs (inject_Z t - inject_Z (_num_workers self)))
      then Raise AssertionError
      else Ok ().

(** ** Resolution of WardInfo keys against a Wards collection *)

(** Modelled from the spec: [_wards.py] is not part of the sources at hand.
    The spec describes Wards as a collection "supporting lookup by
    WardInfo -> index"; [resolve] uses only [key in wards] and
    [wards.index(key)], which are kept abstract here. *)
Record Wards : Type := mkWards {
  wards_contains : WardInfo → bool;
  wards_index : WardInfo → result Z
}.

(** One iteration of the loop body over [list(d.keys())]. *)
Definition resolve_key {V} (wards : Wards) (d : gmap Dest V) (key : Dest)
    : result (gmap Dest V) :=
  match key with
  | DInt _ => Ok d
  | DInfo i =>
      if wards_contains wards i then
        idx ← wards_index wards i;
        if bool_decide (is_Some (d !! DInt idx)) then Raise KeyError
        else
          match d !! key with
          | Some v => Ok (delete key (<[DInt idx := v]> d))
          | None => Raise KeyError
          end
      else Ok d
  end.

Fixpoint resolve_keys {V} (wards : Wards) (keys : list Dest)
    (d : gmap Dest V) : result (gmap Dest V) :=
  match keys with
  | [] => Ok d
  | key :: rest => d' ← resolve_key wards d key; resolve_keys wards rest d'
  end.

Definition resolve_dict {V} (wards : Wards) (d : gmap Dest V)
    : result (gmap Dest V) :=
  resolve_keys wards (dict_keys d) d.

Definition resolve (wards : Wards) (self : Ward) : result Ward :=
  ws ← resolve_dict wards (_workers self);
  ps ← resolve_dict wards (_players self);
  Ok (set_players (fun _ => ps) (set_workers (fun _ => ws) self)).

Definition is_resolved (self : Ward) : bool :=
  match _id self with
  | None => false
  | Some _ =>
      forallb is_int (dict_keys (_workers self))
      && forallb is_int (dict_keys (_players self))
  end.

(** ** Worker and player lists *)

(** A key as the list methods see it: a dictionary key, or Python [None]
    when the ward's own missing id has been appended. *)
Definition py_int (k : option Dest) : option Z :=
  match k with Some (DInt z) => Some z | _ => None end.

(** [keys.sort()] followed by the [isinstance(key, int)] test of the loop:
    with only [int] keys the sorted ids; a single foreign key reaches the
    loop and raises [KeyError]; several keys of which one is not an [int]
    are not comparable and [sort] raises [TypeError]. *)
Definition sorted_int_keys (keys : list (option Dest)) : result (list Z) :=
  match mapM py_int keys with
  | Some zs => Ok (merge_sort Z.le zs)
  | None => Raise (if bool_decide (length keys ≤ 1)%nat then KeyError else TypeError)
  end.

Definition get_worker_lists (self : Ward) : result (list Z * list Z) :=
  let keys := map Some (dict_keys (_workers self)) in
  wards ← sorted_int_keys keys;
  Ok (wards, map (fun key => default 0 (_workers self !! DInt key)) wards).

Definition get_player_lists (no_auto_assign : bool) (self : Ward)
    : result (list Z * list Q) :=
  let keys := map Some (dict_keys (_players self)) in
  let auto_assign := negb no_auto_assign && _auto_assign_players self in
  let self_key : option Dest := DInt <$> _id self in
  let keys : list (option Dest) :=
    if auto_assign && negb (bool_decide (self_key ∈ keys))
    then keys ++ [self_key] else keys in
  wards ← sorted_int_keys keys;
  Ok (wards,
      map (fun key =>
             let w := default 0%Q (_players self !! DInt key) in
             if auto_assign && bool_decide (Some key = _id self)
             then (w + _player_total self)%Q else w) wards).

(** ** Serialisation: [to_data] and [from_data] *)

(** [set_position(x, y, lat, long, units="km")] as [from_data] calls it,
    with the coordinates read from the [position] dictionary:
    [units] is [1.0] and [_pos = {"x": units * float(x), ...}]. *)
Definition set_position_km (pos : Position) (self : Ward) : Ward :=
  match pos with
  | PosNone => self
  | PosXY x y => set_pos_field (PosXY (1 * x) (1 * y)) self
  | PosLatLong lat long => set_pos_field (PosLatLong lat long) self
  end.

Definition set_auto_assign_players (auto_assign_players : bool)
    (self : Ward) : Ward :=
  set_auto_field (if auto_assign_players then true else false) self.

Definition set_num_players (number : Z) (self : Ward) : result Ward :=
  n ← _as_positive_integer number true;
  Ok (set_num_players_field n self).

(** The [{"destination": [...], "population": [...]}] and
    [{"destination": [...], "weights": [...]}] sub-dictionaries. *)
Record WorkersData : Type := mkWorkersData {
  wd_destination : list Z;
  wd_population : list Z
}.

Record PlayersData : Type := mkPlayersData {
  pd_destination : list Z;
  pd_weights : list Q
}.

(** [for d, v in zip(destination, values): ward._links[d] = v] with the
    validation of both components. *)
Fixpoint load_links {V} (check : V → result V) (pairs : list (Z * V))
    (d : gmap Dest V) : result (gmap Dest V) :=
  match pairs with
  | [] => Ok d
  | (dst, v) :: rest =>
      dst' ← _as_positive_integer dst false;
      v' ← check v;
      load_links check rest (<[DInt dst' := v']> d)
  end.




Section Serialise.

(** [WardInfo.to_data] / [WardInfo.from_data] live in [_wardinfo.py],
    which is not part of the sources at hand: they are parameters.
    [info_empty] is the dictionary [{}]. *)
Context {InfoData : Type}.
Variable info_to_data : WardInfo → InfoData.
Variable info_from_data : InfoData → WardInfo.
Variable info_empty : InfoData.

(** The dictionary built by [to_data]; an absent key is [None]. The key
    ["id"] may be present with the value [None]. *)
Record Data : Type := mkData {
  d_id : option (option Z);
  d_position : option Position;
  d_info : option InfoData;
  d_auto_assign_players : option bool;
  d_num_workers : option Z;
  d_num_players : option Z;
  d_workers : option WorkersData;
  d_players : option PlayersData
}.

(** [len(data) == 0] *)
Definition data_is_empty (data : Data) : bool :=
  match data with
  | mkData None None None None None None None None => true
  | _ => false
  end.

Definition to_data (self : Ward) : result Data :=
  workers ← get_worker_lists self;
  players ← get_player_lists true self;
  Ok {| d_id := Some (_id self);
        d_position :=
          match _pos self with PosNone => None | p => Some p end;
        d_info := Some (info_to_data (_info self));
        d_auto_assign_players :=
          if negb (_auto_assign_players self) then Some false else None;
        d_num_workers := Some (_num_workers self);
        d_num_players := Some (_num_players self);
        d_workers :=
          if bool_decide (0 < length workers.1)%nat
          then Some (mkWorkersData workers.1 workers.2) else None;
        d_players :=
          if bool_decide (0 < length players.1)%nat
          then Some (mkPlayersData players.1 players.2) else None |}.

(** [from_data]. The result [None] is the null [Ward()]. A null ward
    (no id, null info) carries no [_workers] attribute, so for it the
    first access to [ward._workers] raises [AttributeError]. *)
Definition from_data (data : option Data) : result (option Ward) :=
  match data with
  | None => Ok None
  | Some data =>
    if data_is_empty data then Ok None
    else
      let id := default None (d_id data) in
      let info := info_from_data (default info_empty (d_info data)) in
      ward ← Ward_init id info true;
      let is_null :=
        bool_decide (_id ward = None) && WardInfo_is_null info in
      let ward := set_position_km (default PosNone (d_position data)) ward in
      let ward :=
        set_auto_assign_players
          (default true (d_auto_assign_players data)) ward in
      ward ← set_num_players (default 0 (d_num_players data)) ward;
      let workers := default (mkWorkersData [] []) (d_workers data) in
      let wpairs := zip (wd_destination workers) (wd_population workers) in
      if is_null then
        match wpairs with
        | (d, p) :: _ =>
            _ ← _as_positive_integer d false;
            _ ← _as_positive_integer p true;
            Raise AttributeError
        | [] => Raise AttributeError
        end
      else
        ws ← load_links (fun p => _as_positive_integer p true)
               wpairs (_workers ward);
        let ward := set_workers (fun _ => ws) ward in
        let ward := set_num_workers_field (sum_Z (_workers ward)) ward in
        if bool_decide (default 0 (d_num_workers data) > 0)
           && negb (bool_decide
                      (Some (_num_workers ward) = d_num_workers data))
        then Raise AssertionError
        else
          let players := default (mkPlayersData [] []) (d_players data) in
          ps ← load_links _as_positive_float
                 (zip (pd_destination players) (pd_weights players))
                 (_players ward);
          let ward := set_players (fun _ => ps) ward in
          let total := (1 - sum_Q (_players ward))%Q in
          total ← (if Qltb (Qabs total) tiny then Ok 0%Q
                   else if Qltb total 0 then Raise AssertionError
                   else Ok total);
          let ward := set_player_total total ward in
          _ ← assert_sane ward;
          Ok (Some ward)
  end.

End Serialise.

(** ** Stage dispatch: [get_functions] *)

Module Dispatch.
Section GetFunctions.

(** [MetaFunction]: the callables that a plugin returns, compared by
  identity. [Shared] stands for the objects that are passed on
  untouched (network, population, infections, rngs, nthreads,
  profiler). A plugin is arbitrary Python code: it may change the state
  of the [World] and it may raise. *)
Context {MetaFunction Shared World : Type}.

Record Kwargs : Type := mkKwargs {
kw_stage : string;
kw_shared : Shared
}.

Definition Plugin : Type :=
Kwargs → World → result (list MetaFunction) * World.

Definition stages : list string :=
["initialise"; "setup"; "foi"; "infect"; "analyse"; "finalise"].

Definition get_functions (stage : string) (shared : Shared)
  (iterator extractor mixer mover : Plugin) (w : World)
  : result (list MetaFunction) * World :=
if negb (bool_decide (stage ∈ stages)) then (Raise ValueError, w)
else
  let kwargs := mkKwargs stage shared in
  match mover kwargs w with
  | (Raise e, w) => (Raise e, w)
  | (Ok fm, w) =>
    match iterator kwargs w with
    | (Raise e, w) => (Raise e, w)
    | (Ok fi, w) =>
      match mixer kwargs w with
      | (Raise e, w) => (Raise e, w)
      | (Ok fx, w) =>
        match extractor kwargs w with
        | (Raise e, w) => (Raise e, w)
        | (Ok fe, w) => (Ok (((fm ++ fi) ++ fx) ++ fe), w)
        end
      end
    end
  end.

End GetFunctions.
End Dispatch.

(** ** Custom mixers: [mix_custom] *)

Module Mixer.
Section MixCustom.

Context {MetaFunction : Type} `{EqDecision MetaFunction} {Kw : Type}.

(** A mixer is called with [**kwargs]; the flag tells whether the key
  ["setup"] was added to them. It returns a list or [None], or raises.
  [merge_core] lives in [_merge_core.py], which is not part of the
  sources at hand: it is a parameter. *)
Definition MixerFn : Type := bool → Kw → result (option (list MetaFunction)).

Variable merge_core : MixerFn.

(** The loop body: [if f not in custom_funcs: custom_funcs.insert(0, f)]. *)
Definition prepend_missing (f : MetaFunction)
  (custom_funcs : list MetaFunction) : list MetaFunction :=
if bool_decide (f ∈ custom_funcs) then custom_funcs
else f :: custom_funcs.

(** [for i in range(len(core_funcs)-1, -1, -1)]: [n] is the number of
  indices still to visit, the next one being [n - 1]. *)
Fixpoint prepend_core (core_funcs : list MetaFunction) (n : nat)
  (custom_funcs : list MetaFunction) : list MetaFunction :=
match n with
| O => custom_funcs
| S i =>
    match core_funcs !! i with
    | Some f => prepend_core core_funcs i (prepend_missing f custom_funcs)
    | None => custom_funcs
    end
end.

(** [needs_setup] is [mixer_needs_setup(custom_function)], a property of
  the function's signature. *)
Definition mix_custom (custom_function : MixerFn) (needs_setup : bool)
  (setup : bool) (kwargs : Kw) : result (list MetaFunction) :=
funcs ← (if setup then
           core_funcs ← merge_core true kwargs;
           custom_funcs ← (if needs_setup
                           then custom_function true kwargs
                           else Ok None);
           Ok (core_funcs, custom_funcs)
         else
           core_funcs ← merge_core false kwargs;
           custom_funcs ← custom_function false kwargs;
           Ok (core_funcs, custom_funcs));
match funcs.1 with
| None | Some [] => Ok (default [] funcs.2)
| Some core_funcs =>
    match funcs.2 with
    | None | Some [] => Ok core_funcs
    | Some custom_funcs =>
        Ok (prepend_core core_funcs (length core_funcs) custom_funcs)
    end
end.

End MixCustom.
End Mixer.

(** ** Network, Networks and [Networks.build] *)

(** Of [Nodes] and [Network] only what the code at hand touches:
    [network.nodes.play_suscept], an array of doubles indexed by node. *)
Record Nodes : Type := mkNodes {
  play_suscept : list Q
}.

Record Network : Type := mkNetwork {
  nodes : Nodes
}.

(** A [Demographics] object is used as a sequence ([len], [d[i]]). *)
Record Demographic : Type := mkDemographic {
  demographic_name : string
}.

Record Networks : Type := mkNetworks {
  overall : option Network;
  subnets : list Network;
  demographics : option (list Demographic)
}.

Section Build.

(** [Network.specialise] lives in [_network.py], which is not part of the
    sources at hand: it is a parameter, and it may raise. *)
Variable specialise : Network → Demographic → result Network.

(** [for i in range(0, len(demographics)): networks.append(...)] *)
Fixpoint specialise_all (network : Network) (ds : list Demographic)
    (networks : list Network) : result (list Network) :=
  match ds with
  | [] => Ok networks
  | d :: rest =>
      n ← specialise network d;
      specialise_all network rest (networks ++ [n])
  end.

Definition build (network : Network)
    (demographics : option (list Demographic)) : result Networks :=
  match demographics with
  | None => Raise ValueError
  | Some ds =>
      if bool_decide (length ds < 2)%nat then Raise ValueError
      else
        networks ← specialise_all network ds [];
        Ok (mkNetworks (Some network) networks (Some ds))
  end.

End Build.

(** ** Additional seeding: [advance_additional] *)

(** Python indexing of a list or array: negative indices count from the
    end, anything else out of range raises [IndexError]. *)
Definition py_slot {A} (l : list A) (i : Z) : result nat :=
  let n := Z.of_nat (length l) in
  let j := if bool_decide (i < 0) then i + n else i in
  if bool_decide (0 ≤ j < n) then Ok (Z.to_nat j) else Raise IndexError.

Definition py_index {A} (l : list A) (i : Z) : result A :=
  j ← py_slot l i;
  match l !! j with Some a => Ok a | None => Raise IndexError end.

Definition py_setitem {A} (l : list A) (i : Z) (a : A) : result (list A) :=
  j ← py_slot l i;
  Ok (<[j := a]> l).

Module Seeding.

(** The [network] argument is a [Network] or a [Networks]. *)
Inductive AnyNetwork : Type :=
  | ANetwork (n : Network)
  | ANetworks (ns : Networks).

(** [Infections] declares [work], [play], [sub_works] and [sub_plays].
    [advance_additional] reads [infections.subinfs], which the class does
    not declare: [subinfs] is [None] unless some caller attached the
    attribute to the object, and reading it then raises
    [AttributeError]. *)
Record SubInfections : Type := mkSubInfections {
  subinf_play : list (list Z)
}.

Record Infections : Type := mkInfections {
  work : list (list Z);
  play : list (list Z);
  sub_works : option (list (list (list Z)));
  sub_plays : option (list (list (list Z)));
  subinfs : option (list SubInfections)
}.

(** A seed tuple [(day, ward, seed, demographic)]. *)
Record Seed : Type := mkSeed {
  seed_day : Z;
  seed_ward : Z;
  seed_num : Z;
  seed_demographic : option Z
}.

(** What [advance_additional] and [Console] hand to the [print] of the
    rich console: the empty string, a [Rule], or one of the three texts
    of the loop. *)
Inductive Renderable : Type :=
  | Empty_text
  | Rule (title : option string)
  | Text_not_enough_susceptibles
  | Text_seeding (demographic : option Z) (ward : Z) (num : Z)
  | Text_unable_to_seed (seed : Seed) (e : exn).

(** The record of the console: the calls of [print] that went through,
    each with the [style] it was given. *)
Inductive ConsoleMsg : Type :=
  | Printed (text : Renderable) (style : option string).

(** What the local variable [network] denotes: the argument itself, or
    (after [network = network.subnets[demographic]]) one of its subnets. *)
Inductive NetRef : Type :=
  | RefArg
  | RefSubnet (slot : nat).

(** The array [play_infections] is an alias of [infections.play] or of
    [infections.subinfs[demographic].play]. *)
Inductive PlayRef : Type :=
  | PlayTop
  | PlaySub (slot : nat).

(** The objects that the loop mutates or rebinds. *)
Record State : Type := mkState {
  st_network : AnyNetwork;
  st_infections : Infections;
  st_local : NetRef;
  st_console : list ConsoleMsg
}.

(** State and exception monad of the loop body. *)
Definition M (A : Type) : Type := State → result A * State.

#[local] Instance M_ret : MRet M := fun _ a s => (Ok a, s).
#[local] Instance M_bind : MBind M := fun _ _ f m s =>
  match m s with
  | (Ok a, s') => f a s'
  | (Raise e, s') => (Raise e, s')
  end.

Definition lift {A} (r : result A) : M A := fun s => (r, s).
Definition get : M State := fun s => (Ok s, s).
Definition put (s : State) : M unit := fun _ => (Ok (), s).
Definition try_except {A} (body : M A) (handler : exn → M A) : M A :=
  fun s =>
    match body s with
    | (Ok a, s') => (Ok a, s')
    | (Raise e, s') => handler e s'
    end.

(** ** The console ([utils/_console.py]) *)

Module Console.
Section Rich.

(** [_get_console] builds the rich console with [record=True] and without
    a theme. The library is not part of the sources at hand: the lookup
    of a style name, which its [print] performs when a [style] is passed,
    is a parameter. It may raise (the library's [MissingStyle] for a name
    that neither its theme nor its style syntax knows), and it does so
    before anything is written. *)
Variable get_style : string → result unit.

(** The console keeps what it printed ([record=True]). *)
Definition recorded (msg : ConsoleMsg) : M unit := fun s =>
  (Ok (), mkState (st_network s) (st_infections s) (st_local s)
            (st_console s ++ [msg])).

(** [Console.print(text, style=...)]:
    [Console._get_console().print(text, *args, **kwargs)]. *)
Definition print (text : Renderable) (style : option string) : M unit :=
  _ ← match style return M unit with
      | Some name => lift (get_style name)
      | None => mret ()
      end;
  recorded (Printed text style).

(** [Console.rule(title)]: [Console.print("")] and
    [Console.print(Rule(title))]. *)
Definition rule (title : option string) : M unit :=
  _ ← print Empty_text None;
  print (Rule title) None.

(** [Console.error(text)]: a rule, the text with [style="error"], a
    rule. *)
Definition error (text : Renderable) : M unit :=
  _ ← rule (Some "ERROR");
  _ ← print text (Some "error");
  rule None.

(** [Console.warning(text)]: a rule, the text with [style="warning"], a
    rule. *)
Definition warning (text : Renderable) : M unit :=
  _ ← rule (Some "WARNING");
  _ ← print text (Some "warning");
  rule None.

End Rich.
End Console.

Section Advance.

(** [Network.get_node_index] ([_network.py]) and
    [Demographics.get_index] ([_demographics.py]) are not part of the
    sources at hand: they are parameters, and they may raise. So is the
    style lookup of the console. *)
Variable get_node_index : Network → Z → result Z.
Variable get_index : list Demographic → Z → result Z.
Variable get_style : string → result unit.

(** The object denoted by the local variable [network]. *)
Definition current : M AnyNetwork :=
  s ← get;
  match st_local s, st_network s with
  | RefArg, n => mret n
  | RefSubnet slot, ANetworks ns =>
      match subnets ns !! slot with
      | Some n => mret (ANetwork n)
      | None => lift (Raise IndexError)
      end
  | RefSubnet _, ANetwork _ => lift (Raise AttributeError)
  end.

(** [wards.play_suscept[...] = v] on the nodes of the object denoted by
    [network]: the write lands in the argument or in its subnet. *)
Definition write_play_suscept (ps : list Q) : M unit :=
  s ← get;
  let upd net :=
    put (mkState net (st_infections s) (st_local s) (st_console s)) in
  match st_local s, st_network s with
  | RefArg, ANetwork _ => upd (ANetwork (mkNetwork (mkNodes ps)))
  | RefSubnet slot, ANetworks ns =>
      upd (ANetworks
             (mkNetworks (overall ns)
                (<[slot := mkNetwork (mkNodes ps)]> (subnets ns))
                (demographics ns)))
  | _, _ => lift (Raise AttributeError)
  end.

Definition read_play (r : PlayRef) : M (list (list Z)) :=
  s ← get;
  match r with
  | PlayTop => mret (play (st_infections s))
  | PlaySub slot =>
      match subinfs (st_infections s) with
      | None => lift (Raise AttributeError)
      | Some subs =>
          match subs !! slot with
          | Some si => mret (subinf_play si)
          | None => lift (Raise IndexError)
          end
      end
  end.

Definition write_play (r : PlayRef) (p : list (list Z)) : M unit :=
  s ← get;
  let inf := st_infections s in
  let upd inf' :=
    put (mkState (st_network s) inf' (st_local s) (st_console s)) in
  match r with
  | PlayTop =>
      upd (mkInfections (work inf) p (sub_works inf) (sub_plays inf)
             (subinfs inf))
  | PlaySub slot =>
      upd (mkInfections (work inf) (play inf) (sub_works inf)
             (sub_plays inf)
             (list_insert slot (mkSubInfections p) <$> subinfs inf))
  end.

(** The branch on [isinstance(network, Networks)]: returns the
    demographic and the alias [play_infections]. *)
Definition select_network (seed : Seed) : M (option Z * PlayRef) :=
  network ← current;
  match network with
  | ANetworks ns =>
      demographic ←
        match seed_demographic seed with
        | None => mret 0
        | Some d =>
            match demographics ns with
            | None => lift (Raise AttributeError)
            | Some ds => lift (get_index ds d)
            end
        end;
      slot ← lift (py_slot (subnets ns) demographic);
      s ← get;
      _ ← put (mkState (st_network s) (st_infections s)
                 (RefSubnet slot) (st_console s));
      subs ← match subinfs (st_infections s) with
             | None => lift (Raise AttributeError)
             | Some subs => mret subs
             end;
      islot ← lift (py_slot subs demographic);
      mret (Some demographic, PlaySub islot)
  | ANetwork _ => mret (None, PlayTop)
  end.

(** The body of the [try] block. *)
Definition seed_try (seed : Seed) (demographic : option Z)
    (play_infections : PlayRef) : M unit :=
  network ← current;
  match network with
  | ANetworks _ => lift (Raise AttributeError)
  | ANetwork net =>
      let num := seed_num seed in
      ward ← lift (get_node_index net (seed_ward seed));
      suscept ← lift (py_index (play_suscept (nodes net)) ward);
      if Qltb suscept (inject_Z num) then
        Console.warning get_style Text_not_enough_susceptibles
      else
        ps ← lift (py_setitem (play_suscept (nodes net)) ward
                     (suscept - inject_Z num)%Q);
        _ ← write_play_suscept ps;
        _ ← Console.print get_style
              (Text_seeding demographic ward num) None;
        p ← read_play play_infections;
        row ← lift (py_index p 0);
        v ← lift (py_index row ward);
        row' ← lift (py_setitem row ward (v + num));
        p' ← lift (py_setitem p 0 row');
        write_play play_infections p'
  end.

(** One iteration of [for seed in additional_seeds]. *)
Definition seed_event (day : Z) (seed : Seed) : M unit :=
  if bool_decide (seed_day seed = day) then
    sel ← select_network seed;
    try_except (seed_try seed sel.1 sel.2)
      (fun e => _ ← Console.error get_style (Text_unable_to_seed seed e);
                lift (Raise e))
  else mret ().

Fixpoint seed_loop (day : Z) (additional_seeds : list Seed) : M unit :=
  match additional_seeds with
  | [] => mret ()
  | seed :: rest => _ ← seed_event day seed; seed_loop day rest
  end.

(** [advance_additional] from the point where the seeds are at hand:
    [additional_seeds] is [network._advance_additional_seeds], which
    every call but the first one finds on the network. The first call
    fills it with [setup_additional_seeds] (reading and parsing of the
    seed files, which is not embedded) before it reaches this loop.
    Returns the exception that escaped, if any, and the state of the
    network, the infections and the console. *)
Definition advance_additional (network : AnyNetwork)
    (day : Z) (infections : Infections)
    (additional_seeds : list Seed) (log : list ConsoleMsg)
    : result unit * State :=
  seed_loop day additional_seeds
    (mkState network infections RefArg log).

End Advance.
End Seeding.

(** ** Concrete inputs *)

Module Inputs.

(** Ward 1 with five workers commuting to ward 2. *)
Definition commuters : Ward :=
  mkWard (Some 1) WardInfo_null {[ DInt 2 := 5 ]} ∅ 1 5 0 PosNone true.

(** Ward 1 with half of its players playing in ward 2. *)
Definition half_away : Ward :=
  mkWard (Some 1) WardInfo_null ∅ {[ DInt 2 := 1 # 2 ]} (1 # 2) 0 0
         PosNone true.

(** Ward 1 with all of its players playing in ward 2. *)
Definition all_away : Ward :=
  mkWard (Some 1) WardInfo_null ∅ {[ DInt 2 := 1%Q ]} 0 0 0 PosNone true.


Definition elsewhere : WardInfo := mkWardInfo "Elsewhere" "" "" "".

(** Ward 1 with three workers commuting to a ward known by name only. *)
Definition unresolved : Ward :=
  mkWard (Some 1) WardInfo_null {[ DInfo elsewhere := 3 ]} ∅ 1 3 0
         PosNone true.

(** A Wards collection that knows no ward at all, and one that knows
    [elsewhere] as ward 2. *)
Definition no_wards : Wards :=
  mkWards (fun _ => false) (fun _ => Raise KeyError).

Definition two_wards : Wards :=
  mkWards (fun i => bool_decide (i = elsewhere))
          (fun i => if bool_decide (i = elsewhere) then Ok 2
                    else Raise KeyError).

(** Ward 1 with workers to ward 2 under both kinds of key. *)
Definition doubled : Ward :=
  mkWard (Some 1) WardInfo_null
         (<[ DInfo elsewhere := 3 ]> {[ DInt 2 := 4 ]}) ∅ 1 7 0
         PosNone true.

(** A three-node network (slot 0 is the sentinel) with 4 play
    susceptibles in ward 2, and its infections with two stages. *)
Definition small_network : Network :=
  mkNetwork (mkNodes [0%Q; 10%Q; 4%Q]).

Definition small_infections : Seeding.Infections :=
  Seeding.mkInfections [] [[0; 0; 0]; [0; 0; 0]] None None None.

(** Node lookup of a network with two wards. *)
Definition two_node_index (net : Network) (ward : Z) : result Z :=
  if bool_decide (1 ≤ ward ≤ 2) then Ok ward else Raise KeyError.

Definition no_demographics (ds : list Demographic) (d : Z) : result Z :=
  Raise KeyError.

(** The style lookup of a console without a theme, as far as the names
    that [Console] passes go: neither ["warning"] nor ["error"] is
    known. And that of a console whose theme defines every name. *)
Definition themeless (name : string) : result unit :=
  if bool_decide (name = "warning" ∨ name = "error")
  then Raise MissingStyle else Ok ().

Definition themed (name : string) : result unit := Ok ().

End Inputs.

(** Sample plugins over a world that records the order of the calls. *)
Module Samples.

Definition plugin (who : string) (funcs : list string)
    : @Dispatch.Plugin string unit (list string) :=
  fun kwargs w => (Ok funcs, w ++ [who]).

Definition mover := plugin "mover" ["move_default"].
Definition iterator := plugin "iterator" ["advance_foi"; "advance_play"].
Definition mixer := plugin "mixer" ["merge_core"].
Definition extractor := plugin "extractor" ["output_core"].

(** A [merge_core] with one function and a custom mixer with another. *)
Definition merge_core : @Mixer.MixerFn string unit :=
  fun _ _ => Ok (Some ["merge_core_foi"]).

Definition mix_matrix : @Mixer.MixerFn string unit :=
  fun _ _ => Ok (Some ["merge_matrix"]).

Definition plain_specialise (network : Network) (d : Demographic)
    : result Network := Ok network.

Definition two_demographics : list Demographic :=
  [mkDemographic "home"; mkDemographic "staff"].

End Samples.

(** * Further operations of the ward builder *)

(** [self._workers.get(destination, 0)] after resolving the destination. *)
Definition get_workers (destination : DestArg) (self : Ward) : result Z :=
  destination ← _resolve_destination self destination;
  Ok (default 0 (_workers self !! destination)).

Definition get_players (destination : DestArg) (self : Ward) : result Q :=
  destination ← _resolve_destination self destination;
  let p := default 0%Q (_players self !! destination) in
  if _auto_assign_players self
     && bool_decide (Some destination = DInt <$> _id self)
  then Ok (p + _player_total self)%Q
  else Ok p.

Definition num_work_links (self : Ward) : nat := size (_workers self).
Definition num_play_links (self : Ward) : nat := size (_players self).
Definition population (self : Ward) : Z :=
  _num_workers self + _num_players self.

(** [set_num_workers]: extra workers are added as commuters to the home
    ward; a smaller number goes through [subtract_workers(delta)] with the
    negative [delta] itself. *)
Definition set_num_workers (number : Z) (self : Ward) : result Ward :=
  number ← _as_positive_integer number true;
  let delta := number - _num_workers self in
  if bool_decide (delta > 0) then add_workers delta ArgNone self
  else if bool_decide (delta < 0) then
    home ← get_workers ArgNone self;
    if bool_decide (delta <= home) then subtract_workers delta ArgNone self
    else Raise ValueError
  else Ok self.

(** [d[new] = d[old]; del d[old]] *)
Definition move_key {V} (old new : Dest) (d : gmap Dest V)
    : result (gmap Dest V) :=
  match d !! old with
  | Some v => Ok (delete old (<[new := v]> d))
  | None => Raise KeyError
  end.

(** [for key in list(d.keys()): if key == old: d[new] = d[old]; del d[old]] *)
Fixpoint rekey_loop {V} (old new : Dest) (keys : list Dest)
    (d : gmap Dest V) : result (gmap Dest V) :=
  match keys with
  | [] => Ok d
  | key :: rest =>
      d' ← (if bool_decide (key = old) then move_key old new d else Ok d);
      rekey_loop old new rest d'
  end.

Definition rekey {V} (old new : Dest) (d : gmap Dest V)
    : result (gmap Dest V) :=
  rekey_loop old new (dict_keys d) d.

Definition set_id_field (id : option Z) (w : Ward) : Ward :=
  mkWard id (_info w) (_workers w) (_players w) (_player_total w)
         (_num_workers w) (_num_players w) (_pos w) (_auto_assign_players w).

(** [set_id] on an argument that already is an [int]. *)
Definition set_id (id : Z) (self : Ward) : result Ward :=
  if bool_decide (id < 1) then Raise ValueError
  else if bool_decide (Some id = _id self) then Ok self
  else if bool_decide (is_Some (_workers self !! DInt id))
          || bool_decide (is_Some (_players self !! DInt id))
  then Raise ValueError
  else
    let old_id := _id self in
    ws ← match old_id with
         | Some old => rekey (DInt old) (DInt id) (_workers self)
         | None => Ok (_workers self)
         end;
    ps ← match old_id with
         | Some old => rekey (DInt old) (DInt id) (_players self)
         | None => Ok (_players self)
         end;
    ws ← (if bool_decide (is_Some (ws !! DInt id)) then Ok ws
          else rekey (DInfo (_info self)) (DInt id) ws);
    ps ← (if bool_decide (is_Some (ps !! DInt id)) then Ok ps
          else rekey (DInfo (_info self)) (DInt id) ps);
    Ok (set_players (fun _ => ps)
          (set_workers (fun _ => ws) (set_id_field (Some id) self))).

(** * Further stage dispatch *)

Module Stages.
Section Loop.

Context {MetaFunction Shared World : Type}.

Local Abbreviation Plugin := (@Dispatch.Plugin MetaFunction Shared World).

(** The four plugins travel together in [**kwargs]. *)
Record Plugins : Type := mkPlugins {
  iterator : Plugin;
  extractor : Plugin;
  mixer : Plugin;
  mover : Plugin
}.

Definition get_stage (stage : string) (shared : Shared) (p : Plugins)
    (w : World) : result (list MetaFunction) * World :=
  Dispatch.get_functions stage shared
    (iterator p) (extractor p) (mixer p) (mover p) w.

(** [funcs = get_functions(stage="setup", ...)] followed by three
    [funcs += get_functions(...)]. *)
Definition get_model_loop_functions (shared : Shared) (p : Plugins)
    (w : World) : result (list MetaFunction) * World :=
  match get_stage "setup" shared p w with
  | (Raise e, w) => (Raise e, w)
  | (Ok funcs, w) =>
    match get_stage "foi" shared p w with
    | (Raise e, w) => (Raise e, w)
    | (Ok more, w) =>
      let funcs := funcs ++ more in
      match get_stage "infect" shared p w with
      | (Raise e, w) => (Raise e, w)
      | (Ok more, w) =>
        let funcs := funcs ++ more in
        match get_stage "analyse" shared p w with
        | (Raise e, w) => (Raise e, w)
        | (Ok more, w) => (Ok (funcs ++ more), w)
        end
      end
    end
  end.

Definition get_initialise_functions (shared : Shared) (p : Plugins)
    (w : World) : result (list MetaFunction) * World :=
  get_stage "initialise" shared p w.

Definition get_finalise_functions (shared : Shared) (p : Plugins)
    (w : World) : result (list MetaFunction) * World :=
  get_stage "finalise" shared p w.

(** [iterate_custom]: [custom_function] is [None] or a function together
    with [accepts_stage(custom_function)], a property of its signature.
    [iterate_default] lives in [_iterate_default.py], which is not part
    of the sources at hand: it is a parameter. *)
Definition iterate_custom (iterate_default : Plugin)
    (custom_function : option (Plugin * bool)) : Plugin :=
  fun kwargs w =>
    match custom_function with
    | None => iterate_default kwargs w
    | Some (custom, accepts_stage) =>
        if bool_decide (Dispatch.kw_stage kwargs = "infect") || accepts_stage
        then custom kwargs w
        else iterate_default kwargs w
    end.

End Loop.

Section CallOnNetwork.

Context {World : Type}.

(** A function called as [func(network=..., **kwargs)]: the flag tells
    whether [nthreads] was put into the keyword arguments. *)
Definition NetworkFn : Type :=
  Network → option Z → World → result unit * World.

(** [for subnet in network.subnets: func(network=subnet, **kwargs)] *)
Fixpoint call_on_each (func : NetworkFn) (nthreads : option Z)
    (subnets : list Network) (w : World) : result unit * World :=
  match subnets with
  | [] => (Ok (), w)
  | subnet :: rest =>
      match func subnet nthreads w with
      | (Raise e, w) => (Raise e, w)
      | (Ok _, w) => call_on_each func nthreads rest w
      end
  end.

Definition call_function_on_network (network : Seeding.AnyNetwork)
    (func parallel : option NetworkFn) (nthreads switch_to_parallel : Z)
    (w : World) : result unit * World :=
  let chosen : option NetworkFn * option Z :=
    match func with
    | None => (parallel, Some nthreads)
    | Some f =>
        if bool_decide (nthreads >= switch_to_parallel)
        then (parallel, Some nthreads)
        else (Some f, None)
    end in
  match chosen.1 with
  | None => (Ok (), w)
  | Some f =>
      match network with
      | Seeding.ANetworks ns => call_on_each f chosen.2 (subnets ns) w
      | Seeding.ANetwork n => f n chosen.2 w
      end
  end.

End CallOnNetwork.
End Stages.

(** * Infections, Disease and Parameters *)

Module Outbreak.

Section InfectionsBuild.

(** [initialise_infections] and [initialise_play_infections] live in
    [utils], which is not part of the sources at hand: they are
    parameters, called with a network or with [None] (the [overall] of a
    [Networks] may be unset), and they may raise. *)
Variable initialise_infections : option Network → result (list (list Z)).
Variable initialise_play_infections :
  option Network → result (list (list Z)).

(** The loop over [networks.subnets], appending to [works] and [plays]. *)
Fixpoint build_subs (subnets : list Network)
    (works plays : list (list (list Z)))
    : result (list (list (list Z)) * list (list (list Z))) :=
  match subnets with
  | [] => Ok (works, plays)
  | subnet :: rest =>
      wk ← initialise_infections (Some subnet);
      pl ← initialise_play_infections (Some subnet);
      build_subs rest (works ++ [wk]) (plays ++ [pl])
  end.

(** [Infections.build(network=None, networks=None)]. A fresh
    [Infections()] has no attribute besides the four class attributes,
    which are [None]. *)
Definition Infections_build (network : option Seeding.AnyNetwork)
    (networks : option Networks) : result Seeding.Infections :=
  network ← match network, networks with
            | None, None => Ok None
            | None, Some ns => Ok (Some (Seeding.ANetworks ns))
            | Some n, None => Ok (Some n)
            | Some _, Some _ => Raise ValueError
            end;
  match network with
  | Some (Seeding.ANetwork n) =>
      wk ← initialise_infections (Some n);
      pl ← initialise_play_infections (Some n);
      Ok (Seeding.mkInfections wk pl None None None)
  | Some (Seeding.ANetworks ns) =>
      wk ← initialise_infections (overall ns);
      pl ← initialise_play_infections (overall ns);
      subs ← build_subs (subnets ns) [] [];
      Ok (Seeding.mkInfections wk pl (Some subs.1) (Some subs.2) None)
  | None => Raise AttributeError
  end.

End InfectionsBuild.

(** [Disease]: the four parameter lists; each is [None] until set. The
    string metadata takes no part in the methods below. *)
Record Disease : Type := mkDisease {
  beta : option (list Q);
  progress : option (list Q);
  too_ill_to_move : option (list Q);
  contrib_foi : option (list Q)
}.

(** [len(x)] of an attribute that may be [None]. *)
Definition py_len {A} (x : option (list A)) : result nat :=
  match x with
  | Some l => Ok (length l)
  | None => Raise TypeError
  end.

Definition N_INF_CLASSES (self : Disease) : result nat := py_len (beta self).

(** [assert cond] *)
Definition py_assert (cond : bool) : result unit :=
  if cond then Ok () else Raise AssertionError.

(** [_validate]: every exception of the body is re-raised as an
    [AssertionError]. *)
Definition _validate (self : Disease) : result unit :=
  match (n ← py_len (beta self);
         m ← py_len (progress self);
         _ ← py_assert (bool_decide (m = n));
         m ← py_len (too_ill_to_move self);
         _ ← py_assert (bool_decide (m = n));
         m ← py_len (contrib_foi self);
         py_assert (bool_decide (m = n))) with
  | Ok _ => Ok ()
  | Raise _ => Raise AssertionError
  end.

(** The character [","]. *)
Definition comma : Ascii.ascii := Ascii.ascii_of_nat 44.

(** [str.split(sep)] for a separator of one character. *)
Fixpoint split_on (sep : Ascii.ascii) (s : string) : list string :=
  match s with
  | EmptyString => [EmptyString]
  | String c rest =>
      if Ascii.eqb c sep then EmptyString :: split_on sep rest
      else
        match split_on sep rest with
        | word :: words => String c word :: words
        | [] => [String c EmptyString]
        end
  end.

(** [x[i] = v] on an attribute that may be [None]. *)
Definition py_setitem_opt {A} (x : option (list A)) (i : Z) (v : A)
    : result (option (list A)) :=
  match x with
  | Some l => l' ← py_setitem l i v; Ok (Some l')
  | None => Raise TypeError
  end.

(** Of [Parameters] only [disease_params], the attribute that [read_file]
    touches. *)
Record Parameters : Type := mkParameters {
  disease_params : option Disease
}.

Section ReadFile.

(** [float(word)] on a string: [None] when it raises. *)
Variable float_of_string : string → option Q.

(** [for word in words: vals.append(float(word))] inside the [try]. *)
Fixpoint read_floats (words : list string) : result (list Q) :=
  match words with
  | [] => Ok []
  | word :: rest =>
      match float_of_string word with
      | Some v => vals ← read_floats rest; Ok (v :: vals)
      | None => Raise ValueError
      end
  end.

Definition set_beta (d : Disease) (b : option (list Q)) : Disease :=
  mkDisease b (progress d) (too_ill_to_move d) (contrib_foi d).

Definition set_progress (d : Disease) (p : option (list Q)) : Disease :=
  mkDisease (beta d) p (too_ill_to_move d) (contrib_foi d).

(** One assignment [self.disease_params.<field>[i] = v]; the state is
    returned also when the assignment raises. *)
Definition assign (get : Disease → option (list Q))
    (set : Disease → option (list Q) → Disease) (i : Z) (v : Q)
    (self : Parameters) : result unit * Parameters :=
  match disease_params self with
  | None => (Raise AttributeError, self)
  | Some d =>
      match py_setitem_opt (get d) i v with
      | Ok l => (Ok (), mkParameters (Some (set d l)))
      | Raise e => (Raise e, self)
      end
  end.

(** [read_file(filename, line_number)] on a file that exists, given as
    the list of its lines: [readline] is called once, and the counter [i]
    is 0 when it is compared with [line_number]. *)
Definition read_file (lines : list string) (line_number : Z)
    (self : Parameters) : result unit * Parameters :=
  let line := hd EmptyString lines in
  if bool_decide (0 = line_number) then
    let words := split_on comma line in
    if negb (bool_decide (length words = 5%nat)) then (Raise ValueError, self)
    else
      match read_floats words with
      | Raise e => (Raise ValueError, self)
      | Ok vals =>
          match vals with
          | [v0; v1; v2; v3; v4] =>
              match assign beta set_beta 2 v0 self with
              | (Raise e, s) => (Raise e, s)
              | (Ok _, s) =>
              match assign beta set_beta 3 v1 s with
              | (Raise e, s) => (Raise e, s)
              | (Ok _, s) =>
              match assign progress set_progress 1 v2 s with
              | (Raise e, s) => (Raise e, s)
              | (Ok _, s) =>
              match assign progress set_progress 2 v3 s with
              | (Raise e, s) => (Raise e, s)
              | (Ok _, s) => assign progress set_progress 3 v4 s
              end end end end
          | _ => (Raise IndexError, self)
          end
      end
  else (Raise ValueError, self).

End ReadFile.
End Outbreak.

(** Plugins that keep no state, and a disease with four stages. *)
Module Samples2.

Definition stateless (funcs : string → list string)
    : @Dispatch.Plugin string unit unit :=
  fun kwargs w => (Ok (funcs (Dispatch.kw_stage kwargs)), w).

Definition plugins : @Stages.Plugins string unit unit :=
  Stages.mkPlugins
    (stateless (fun stage => ["iterate_" +:+ stage]))
    (stateless (fun stage => ["extract_" +:+ stage]))
    (stateless (fun stage => ["mix_" +:+ stage]))
    (stateless (fun stage => ["move_" +:+ stage])).

Definition iterate_default : @Dispatch.Plugin string unit unit :=
  stateless (fun stage => ["default_" +:+ stage]).

Definition iterate_mine : @Dispatch.Plugin string unit unit :=
  stateless (fun stage => ["mine"]).

Definition ncov : Outbreak.Disease :=
  Outbreak.mkDisease (Some [0; 0; 1; 1]%Q) (Some [1; 1; 1; 0]%Q)
                     (Some [0; 0; 0; 0]%Q) (Some [1; 1; 1; 0]%Q).

(** A [float] that reads the digits ["0"] to ["9"] only. *)
Definition digit (s : string) : option Q :=
  if bool_decide (s = "0") then Some 0%Q
  else if bool_decide (s = "1") then Some 1%Q
  else if bool_decide (s = "2") then Some 2%Q
  else if bool_decide (s = "3") then Some 3%Q
  else if bool_decide (s = "4") then Some 4%Q
  else if bool_decide (s = "5") then Some 5%Q
  else None.

Definition zeros (network : option Network) : result (list (list Z)) :=
  Ok [[0; 0; 0]; [0; 0; 0]].

Definition two_subnets : Networks :=
  mkNetworks (Some Inputs.small_network)
             [Inputs.small_network; Inputs.small_network]
             (Some Samples.two_demographics).

(** Ward 1 known by id and by name, with workers at home under its info
    and commuters to ward 2. *)
Definition home : WardInfo := mkWardInfo "Home" "" "" "".

Definition renamed : Ward :=
  mkWard (Some 1) home
         (<[ DInfo home := 3 ]> {[ DInt 2 := 4 ]}) {[ DInt 1 := 1 # 4 ]}
         (3 # 4) 7 0 PosNone true.

(** A ward known by name only, with workers and players at home under
    its info. *)
Definition by_name : Ward :=
  mkWard None home {[ DInfo home := 3 ]} {[ DInfo home := 1 # 4 ]}
         (3 # 4) 3 0 PosNone true.

End Samples2.

(** * Properties *)

(** ** Reflection of the rational comparisons *)

Lemma Qltb_lt (x y : Q) : Qltb x y = true ↔ (x < y)%Q.
Proof.
  unfold Qltb. rewrite negb_true_iff, <- not_true_iff_false, Qle_bool_iff.
  split; [apply Qnot_le_lt | apply Qlt_not_le].
Qed.

Lemma Qltb_ge (x y : Q) : Qltb x y = false ↔ (y <= x)%Q.
Proof.
  unfold Qltb. rewrite negb_false_iff, Qle_bool_iff. done.
Qed.

Lemma Qabs_lt_iff (x y : Q) : (Qabs x < y)%Q ↔ (- y < x < y)%Q.
Proof. apply Qabs_Qlt_condition. Qed.

Lemma positive_float_ok (w : Q) : (0 <= w)%Q → _as_positive_float w = Ok w.
Proof.
  intros H. unfold _as_positive_float.
  by rewrite (proj2 (Qltb_ge w 0) H).
Qed.

Lemma positive_integer_ok (n : Z) (b : bool) :
  0 < n → _as_positive_integer n b = Ok n.
Proof.
  intros H. unfold _as_positive_integer.
  rewrite !bool_decide_eq_false_2 by lia. done.
Qed.

Lemma nonneg_integer_ok (n : Z) : 0 ≤ n → _as_positive_integer n true = Ok n.
Proof.
  intros H. unfold _as_positive_integer.
  rewrite bool_decide_eq_false_2 by lia. by rewrite andb_false_r.
Qed.

(** ** Workers *)

Lemma subtract_workers_absent (self : Ward) (n : Z) (dest : DestArg) (d : Dest) :
  0 ≤ n → _resolve_destination self dest = Ok d →
  _workers self !! d = None →
  subtract_workers n dest self = Ok self.
Proof.
  intros Hn Hd Habs. unfold subtract_workers.
  rewrite Hd. cbn. rewrite (nonneg_integer_ok n Hn). cbn. by rewrite Habs.
Qed.

Lemma subtract_workers_drained (self : Ward) (n : Z) (dest : DestArg)
    (d : Dest) (cur : Z) :
  0 ≤ n → _resolve_destination self dest = Ok d →
  _workers self !! d = Some cur → cur ≤ n →
  subtract_workers n dest self
  = Ok (set_workers (delete d)
          (set_num_workers_field (_num_workers self - cur) self)).
Proof.
  intros Hn Hd Hcur Hle. unfold subtract_workers.
  rewrite Hd. cbn. rewrite (nonneg_integer_ok n Hn). cbn. rewrite Hcur.
  by rewrite bool_decide_eq_true_2 by lia.
Qed.

Lemma subtract_workers_partial (self : Ward) (n : Z) (dest : DestArg)
    (d : Dest) (cur : Z) :
  0 ≤ n → _resolve_destination self dest = Ok d →
  _workers self !! d = Some cur → n < cur →
  subtract_workers n dest self = Raise TypeError.
Proof.
  intros Hn Hd Hcur Hlt. unfold subtract_workers.
  rewrite Hd. cbn. rewrite (nonneg_integer_ok n Hn). cbn. rewrite Hcur.
  by rewrite bool_decide_eq_false_2 by lia.
Qed.

(** C4. Removing fewer workers than a link holds: on ward 1 with five
    workers commuting to ward 2, [subtract_workers(3, 2)] raises
    [TypeError] (the statement [self._workers -= number] subtracts an
    [int] from the dictionary) instead of leaving two workers on the link;
    nothing is removed. *)
Theorem subtract_workers_fewer_raises :
  _workers Inputs.commuters !! DInt 2 = Some 5
  ∧ subtract_workers 3 (ArgInt 2) Inputs.commuters = Raise TypeError.
Proof. split; reflexivity. Qed.

(** ** Player weights *)

Lemma Qabs_ge_cases (x y : Q) : (y <= Qabs x)%Q → (y <= x)%Q ∨ (y <= - x)%Q.
Proof.
  apply (Qabs_case x (fun a => (y <= a)%Q → (y <= x)%Q ∨ (y <= - x)%Q));
    intros; [by left | by right].
Qed.

Lemma bind_Ok {A B} (f : A → result B) (a : A) : (Ok a ≫= f) = f a.
Proof. reflexivity. Qed.

Lemma bind_Raise {A B} (f : A → result B) (e : exn) :
  (Raise e ≫= f) = Raise e.
Proof. reflexivity. Qed.

(** C2. Taking part of a play weight away: on ward 1 with weight 1/2 to
    ward 2 and residual 1/2 (a sane ward), [subtract_player_weight(1/5, 2)]
    deletes the whole entry for ward 2 and returns only 1/5 to the
    residual, so the weights and the residual then sum to 7/10 and
    [assert_sane] fails. *)
Theorem subtract_player_weight_loses_weight :
  assert_sane Inputs.half_away = Ok ()
  ∧ _players Inputs.half_away !! DInt 2 = Some (1 # 2)%Q
  ∧ ∃ after : Ward,
      subtract_player_weight (1 # 5) (ArgInt 2) Inputs.half_away = Ok after
      ∧ _players after !! DInt 2 = None
      ∧ _player_total after = (7 # 10)%Q
      ∧ (sum_Q (_players after) + _player_total after == 7 # 10)%Q
      ∧ assert_sane after = Raise AssertionError.
Proof.
  split; [reflexivity | split; [reflexivity |]].
  eexists. split; [reflexivity |].
  repeat split; reflexivity.
Qed.

(** What [subtract_player_weight] does on a present entry, whatever the
    weight: the entry is deleted and the capped weight is returned. *)
Lemma subtract_player_weight_present (self : Ward) (w : Q) (dest : DestArg)
    (d : Dest) (cur : Q) :
  (tiny <= w)%Q → _resolve_destination self dest = Ok d →
  _players self !! d = Some cur →
  let w' := if Qltb cur w then cur else w in
  let total := (_player_total self + w')%Q in
  subtract_player_weight w dest self
  = Ok (set_player_total
          (if Qltb (Qabs (total - 1)) tiny then 1%Q else total)
          (set_players (delete d) self)).
Proof.
  intros Hw Hd Hcur. unfold subtract_player_weight.
  rewrite positive_float_ok by (unfold tiny in Hw; lra).
  rewrite bind_Ok, Hd, bind_Ok.
  rewrite (proj2 (Qltb_ge w tiny) Hw). by rewrite Hcur.
Qed.

(** C6. [add_player_weight] with a non-negative weight and a valid
    destination: a weight below [1e-10] changes nothing; the call raises
    exactly when the weight is at least [1e-10] and exceeds the residual by
    at least [1e-10] (the boundary included); otherwise a weight strictly
    within [1e-10] of the residual is replaced by the residual, the entry
    of the destination grows by that weight and the residual shrinks by
    it, a residual below [1e-10] being stored as 0. *)
Theorem add_player_weight_cases (self : Ward) (w : Q) (dest : DestArg)
    (d : Dest) :
  (0 <= w)%Q →
  _resolve_destination self dest = Ok d →
  let pt := _player_total self in
  let w' := if Qltb (Qabs (w - pt)) tiny then pt else w in
  let rest := (pt - w')%Q in
  ((w < tiny)%Q → add_player_weight w dest self = Ok self)
  ∧ (add_player_weight w dest self = Raise ValueError
     ↔ (tiny <= w)%Q ∧ (tiny <= w - pt)%Q)
  ∧ ((tiny <= w)%Q → (w - pt < tiny)%Q →
     add_player_weight w dest self
     = Ok (set_player_total (if Qltb rest tiny then 0%Q else rest)
             (set_players
                (<[d := (default 0%Q (_players self !! d) + w')%Q]>) self))
     ∧ ((if Qltb rest tiny then 0 else rest) == pt - w')%Q).
Proof.
  intros Hw Hd pt w' rest.
  unfold add_player_weight.
  rewrite (positive_float_ok w Hw), bind_Ok, Hd, bind_Ok.
  fold pt. fold w'. fold rest.
  split; [| split].
  - intros Hlt. by rewrite (proj2 (Qltb_lt w tiny) Hlt).
  - split.
    + destruct (Qltb w tiny) eqn:Ht; [done |].
      apply Qltb_ge in Ht.
      destruct (Qltb pt w') eqn:Hp; [| done].
      intros _. split; [done |].
      apply Qltb_lt in Hp. subst w'.
      destruct (Qltb (Qabs (w - pt)) tiny) eqn:Ha.
      * exfalso. lra.
      * apply Qltb_ge in Ha.
        destruct (Qabs_ge_cases _ _ Ha); lra.
    + intros [Ht Hx].
      rewrite (proj2 (Qltb_ge w tiny) Ht).
      assert (Ha : Qltb (Qabs (w - pt)) tiny = false).
      { apply Qltb_ge. rewrite Qabs_pos; [done | unfold tiny in *; lra]. }
      subst w'. rewrite Ha.
      assert (Hp : Qltb pt w = true) by (apply Qltb_lt; unfold tiny in *; lra).
      by rewrite Hp.
  - intros Ht Hx.
    rewrite (proj2 (Qltb_ge w tiny) Ht).
    assert (Hp : Qltb pt w' = false).
    { apply Qltb_ge. subst w'.
      destruct (Qltb (Qabs (w - pt)) tiny) eqn:Ha; [lra |].
      apply Qltb_ge in Ha.
      destruct (Qabs_ge_cases _ _ Ha); unfold tiny in *; lra. }
    rewrite Hp. split; [done |].
    destruct (Qltb rest tiny) eqn:Hr; [| reflexivity].
    apply Qltb_lt in Hr. subst rest w'.
    destruct (Qltb (Qabs (w - pt)) tiny) eqn:Ha; [lra |].
    apply Qltb_ge in Ha. exfalso.
    destruct (Qabs_ge_cases _ _ Ha); lra.
Qed.

(** ** Keys of a dictionary and their sorted list *)

Lemma elem_of_dict_keys {V} (m : gmap Dest V) (k : Dest) :
  k ∈ dict_keys m ↔ is_Some (m !! k).
Proof.
  unfold dict_keys. rewrite list_elem_of_fmap. split.
  - intros [[k' v] [-> H]]. apply elem_of_map_to_list in H. by exists v.
  - intros [v H]. exists (k, v). split; [done |].
    by apply elem_of_map_to_list.
Qed.

Lemma NoDup_dict_keys {V} (m : gmap Dest V) : NoDup (dict_keys m).
Proof. apply NoDup_fst_map_to_list. Qed.

Lemma mapM_py_int_ints (keys : list Dest) :
  Forall (fun k => is_int k = true) keys →
  ∃ zs, mapM py_int (map Some keys) = Some zs ∧ map DInt zs = keys.
Proof.
  induction 1 as [| k keys Hk _ [zs [Hzs Heq]]].
  - by exists [].
  - destruct k as [z | i]; [| done].
    exists (z :: zs). split; [| by rewrite <- Heq].
    cbn. by rewrite Hzs.
Qed.

Lemma sorted_int_keys_ints (keys : list Dest) :
  Forall (fun k => is_int k = true) keys →
  ∃ zs, sorted_int_keys (map Some keys) = Ok zs
        ∧ map DInt zs ≡ₚ keys
        ∧ Sorted Z.le zs.
Proof.
  intros H. destruct (mapM_py_int_ints keys H) as [zs [Hzs Heq]].
  exists (merge_sort Z.le zs). unfold sorted_int_keys. rewrite Hzs.
  split; [done |]. split.
  - rewrite <- Heq. apply fmap_Permutation, merge_sort_Permutation.
  - apply Sorted_merge_sort. intros x y. lia.
Qed.

Lemma elem_of_sorted_keys (zs : list Z) (keys : list Dest) (z : Z) :
  map DInt zs ≡ₚ keys → z ∈ zs ↔ DInt z ∈ keys.
Proof.
  intros HP. rewrite <- HP. split.
  - intros H. apply list_elem_of_fmap. by exists z.
  - intros H. apply list_elem_of_fmap in H as [z' [E H]]. by inversion E.
Qed.

(** ** Player lists *)

(** C9. [get_player_lists] on a ward with an id and integer keys only.
    With [auto_assign_players] set and [no_auto_assign] unset, the ward's
    own id is always among the returned destinations, whatever the
    residual; its weight is the explicit self-weight (0.0 if none) plus the
    residual. With [no_auto_assign=True] the destinations are the keys of
    the players map and the weights are the stored ones, with no residual
    added. Both lists are sorted by destination. *)
Theorem get_player_lists_cases (self : Ward) (i : Z) :
  _id self = Some i →
  Forall (fun k => is_int k = true) (dict_keys (_players self)) →
  let stored k := default 0%Q (_players self !! DInt k) in
  let auto := _auto_assign_players self in
  ∃ ks ks0 : list Z,
    get_player_lists false self
    = Ok (ks, map (fun k => if auto && bool_decide (Some k = Some i)
                            then (stored k + _player_total self)%Q
                            else stored k) ks)
    ∧ (∀ k, k ∈ ks ↔ is_Some (_players self !! DInt k) ∨ (auto = true ∧ k = i))
    ∧ Sorted Z.le ks
    ∧ get_player_lists true self = Ok (ks0, map stored ks0)
    ∧ (∀ k, k ∈ ks0 ↔ is_Some (_players self !! DInt k))
    ∧ Sorted Z.le ks0.
Proof.
  intros Hid Hint stored auto.
  destruct (sorted_int_keys_ints _ Hint) as [ks0 [Hks0 [HP0 HS0]]].
  assert (Hmem0 : ∀ k, k ∈ ks0 ↔ is_Some (_players self !! DInt k)).
  { intros k. rewrite (elem_of_sorted_keys _ _ _ HP0).
    apply elem_of_dict_keys. }
  assert (Htrue : get_player_lists true self = Ok (ks0, map stored ks0)).
  { unfold get_player_lists. cbn [negb andb]. rewrite Hks0. done. }
  unfold get_player_lists at 1. cbn [negb andb]. rewrite Hid. fold auto.
  change (DInt <$> Some i) with (Some (DInt i)).
  destruct auto eqn:Hauto; cbn [andb].
  - destruct (bool_decide (Some (DInt i) ∈ map Some (dict_keys (_players self))))
      eqn:Hin; cbn [negb].
    + exists ks0, ks0. rewrite Hks0, bind_Ok.
      split; [done |]. split; [| done].
      intros k. rewrite Hmem0. split; [by left |].
      intros [H | [_ ->]]; [done |].
      apply bool_decide_eq_true in Hin.
      apply list_elem_of_fmap in Hin as [k' [E Hk']]. inversion E; subst k'.
      by apply elem_of_dict_keys.
    + assert (Hint' : Forall (fun k => is_int k = true)
                        (dict_keys (_players self) ++ [DInt i])).
      { apply Forall_app. split; [done | by repeat constructor]. }
      destruct (sorted_int_keys_ints _ Hint') as [ks [Hks [HP HS]]].
      exists ks, ks0.
      replace (map Some (dict_keys (_players self)) ++ [Some (DInt i)])
        with (map Some (dict_keys (_players self) ++ [DInt i]))
        by (by rewrite map_app).
      rewrite Hks, bind_Ok.
      split; [done |]. split; [| done].
      intros k. rewrite (elem_of_sorted_keys _ _ _ HP), elem_of_app.
      rewrite elem_of_dict_keys, list_elem_of_singleton.
      split; intros [H | H]; auto.
      * right. split; [done | by inversion H].
      * right. destruct H as [_ ->]. done.
  - exists ks0, ks0. rewrite Hks0, bind_Ok.
    split; [done |]. split; [| done].
    intros k. rewrite Hmem0. split; [by left | by intros [H | [H _]]].
Qed.

(** ** Resolution *)

Section ResolveKeys.

Context {V : Type}.
Variable wards : Wards.

Implicit Types (d r : gmap Dest V) (keys : list Dest).

(** A step keeps every integer key with its value. *)
Lemma resolve_key_ints d key d' z v :
  resolve_key wards d key = Ok d' →
  d !! DInt z = Some v → d' !! DInt z = Some v.
Proof.
  intros Hstep Hz. destruct key as [z' | i]; cbn in Hstep.
  - by simplify_eq.
  - destruct (wards_contains wards i); [| by simplify_eq].
    destruct (wards_index wards i) as [idx |]; [| done]. cbn in Hstep.
    case_bool_decide as Hcol; [done |].
    destruct (d !! DInfo i) as [vi |]; [| done].
    inversion Hstep; subst d'.
    rewrite lookup_delete_ne by done.
    rewrite lookup_insert_ne; [done |].
    intros E. inversion E; subst idx. apply Hcol. by exists v.
Qed.

(** A step changes no WardInfo key other than the one it visits, and it
    visits only a key that the collection contains. *)
Lemma resolve_key_infos d key d' i :
  resolve_key wards d key = Ok d' →
  key ≠ DInfo i ∨ wards_contains wards i = false →
  d' !! DInfo i = d !! DInfo i.
Proof.
  intros Hstep Hne. destruct key as [z' | j]; cbn in Hstep.
  - by simplify_eq.
  - destruct (wards_contains wards j) eqn:Hc; [| by simplify_eq].
    destruct (wards_index wards j) as [idx |]; [| done]. cbn in Hstep.
    case_bool_decide as Hcol; [done |].
    destruct (d !! DInfo j) as [vj |]; [| done].
    inversion Hstep; subst d'.
    assert (j ≠ i) by (intros ->; destruct Hne; congruence).
    rewrite lookup_delete_ne by congruence.
    by rewrite lookup_insert_ne.
Qed.

(** A step on a contained key moves its value under the index. *)
Lemma resolve_key_moves d i d' v :
  resolve_key wards d (DInfo i) = Ok d' →
  wards_contains wards i = true → d !! DInfo i = Some v →
  d' !! DInfo i = None
  ∧ ∃ idx, wards_index wards i = Ok idx ∧ d' !! DInt idx = Some v.
Proof.
  intros Hstep Hc Hv. cbn in Hstep. rewrite Hc in Hstep.
  destruct (wards_index wards i) as [idx |]; [| done]. cbn in Hstep.
  case_bool_decide as Hcol; [done |].
  rewrite Hv in Hstep. inversion Hstep; subst d'.
  split; [apply lookup_delete_eq |].
  exists idx. split; [done |].
  rewrite lookup_delete_ne by done. apply lookup_insert_eq.
Qed.

Lemma resolve_keys_ints keys : ∀ d r z v,
  resolve_keys wards keys d = Ok r →
  d !! DInt z = Some v → r !! DInt z = Some v.
Proof.
  induction keys as [| key rest IH]; intros d r z v Hr Hz; cbn in Hr.
  - by simplify_eq.
  - destruct (resolve_key wards d key) as [d' |] eqn:Hstep; [| done].
    cbn in Hr. eauto using resolve_key_ints.
Qed.

Lemma resolve_keys_uncontained keys : ∀ d r i,
  resolve_keys wards keys d = Ok r →
  wards_contains wards i = false →
  r !! DInfo i = d !! DInfo i.
Proof.
  induction keys as [| key rest IH]; intros d r i Hr Hc; cbn in Hr.
  - by simplify_eq.
  - destruct (resolve_key wards d key) as [d' |] eqn:Hstep; [| done].
    cbn in Hr. rewrite (IH _ _ _ Hr Hc).
    eapply resolve_key_infos; eauto.
Qed.

Lemma resolve_keys_contained keys : ∀ d r i v,
  resolve_keys wards keys d = Ok r →
  DInfo i ∈ keys → wards_contains wards i = true →
  d !! DInfo i = Some v →
  ∃ idx, wards_index wards i = Ok idx ∧ r !! DInt idx = Some v.
Proof.
  induction keys as [| key rest IH]; intros d r i v Hr Hin Hc Hv; cbn in Hr.
  - by apply elem_of_nil in Hin.
  - destruct (resolve_key wards d key) as [d' |] eqn:Hstep; [| done].
    cbn in Hr. destruct (decide (key = DInfo i)) as [-> | Hne].
    + destruct (resolve_key_moves _ _ _ _ Hstep Hc Hv) as [_ [idx [Hi Hd']]].
      exists idx. split; [done |]. eauto using resolve_keys_ints.
    + apply elem_of_cons in Hin as [E | Hin]; [congruence |].
      eapply IH; eauto.
      rewrite (resolve_key_infos _ _ _ i Hstep); auto.
Qed.

Lemma resolve_keys_unvisited keys : ∀ d r i,
  resolve_keys wards keys d = Ok r →
  DInfo i ∉ keys → r !! DInfo i = d !! DInfo i.
Proof.
  induction keys as [| key rest IH]; intros d r i Hr Hnotin; cbn in Hr.
  - by simplify_eq.
  - destruct (resolve_key wards d key) as [d' |] eqn:Hstep; [| done].
    cbn in Hr. apply not_elem_of_cons in Hnotin as [Hk Hnotin].
    rewrite (IH _ _ _ Hr Hnotin).
    eapply resolve_key_infos; eauto.
Qed.

Lemma resolve_keys_gone keys : ∀ d r i,
  resolve_keys wards keys d = Ok r →
  DInfo i ∈ keys → wards_contains wards i = true →
  is_Some (d !! DInfo i) → NoDup keys →
  r !! DInfo i = None.
Proof.
  induction keys as [| key rest IH]; intros d r i Hr Hin Hc Hv Hnd; cbn in Hr.
  - by apply elem_of_nil in Hin.
  - destruct (resolve_key wards d key) as [d' |] eqn:Hstep; [| done].
    cbn in Hr. apply NoDup_cons in Hnd as [Hnotin Hnd].
    destruct (decide (key = DInfo i)) as [-> | Hne].
    + destruct Hv as [v Hv].
      destruct (resolve_key_moves _ _ _ _ Hstep Hc Hv) as [Hgone _].
      by rewrite (resolve_keys_unvisited _ _ _ _ Hr Hnotin).
    + apply elem_of_cons in Hin as [E | Hin]; [congruence |].
      eapply IH; eauto.
      rewrite (resolve_key_infos _ _ _ i Hstep); auto.
Qed.

Lemma resolve_keys_collision keys : ∀ d i idx,
  DInfo i ∈ keys → wards_contains wards i = true →
  wards_index wards i = Ok idx → is_Some (d !! DInt idx) →
  is_ok (resolve_keys wards keys d) = false.
Proof.
  induction keys as [| key rest IH]; intros d i idx Hin Hc Hi Hcol; cbn.
  - by apply elem_of_nil in Hin.
  - destruct (resolve_key wards d key) as [d' |] eqn:Hstep; [| done].
    cbn. destruct (decide (key = DInfo i)) as [-> | Hne].
    + exfalso. cbn in Hstep. rewrite Hc, Hi in Hstep. cbn in Hstep.
      by rewrite bool_decide_eq_true_2 in Hstep.
    + apply elem_of_cons in Hin as [E | Hin]; [congruence |].
      apply (IH d' i idx Hin Hc Hi).
      destruct Hcol as [v Hv]. exists v. eauto using resolve_key_ints.
Qed.

Lemma resolve_keys_nothing keys : ∀ d,
  (∀ i, DInfo i ∈ keys → wards_contains wards i = false) →
  resolve_keys wards keys d = Ok d.
Proof.
  induction keys as [| key rest IH]; intros d H; cbn; [done |].
  assert (Hstep : resolve_key wards d key = Ok d).
  { destruct key as [z | i]; [done |]. cbn.
    rewrite (H i) by (by left). done. }
  rewrite Hstep. cbn. apply IH. intros i Hi. apply H. by right.
Qed.

End ResolveKeys.

Lemma resolve_unfold (wards : Wards) (self r : Ward) :
  resolve wards self = Ok r →
  resolve_keys wards (dict_keys (_workers self)) (_workers self)
    = Ok (_workers r)
  ∧ resolve_keys wards (dict_keys (_players self)) (_players self)
    = Ok (_players r).
Proof.
  unfold resolve, resolve_dict. intros H.
  destruct (resolve_keys wards (dict_keys (_workers self)) (_workers self))
    as [ws |]; [| done].
  destruct (resolve_keys wards (dict_keys (_players self)) (_players self))
    as [ps |]; [| done].
  cbn in H. by simplify_eq.
Qed.

Lemma resolve_dict_remaining {V} (wards : Wards) (d r : gmap Dest V) i :
  resolve_keys wards (dict_keys d) d = Ok r →
  is_Some (r !! DInfo i) → wards_contains wards i = false.
Proof.
  intros Hr [v Hv]. destruct (wards_contains wards i) eqn:Hc; [| done].
  exfalso. destruct (d !! DInfo i) as [v0 |] eqn:Hd.
  - rewrite (resolve_keys_gone wards _ _ _ i Hr) in Hv; [done | | done | |].
    + apply elem_of_dict_keys. by exists v0.
    + by exists v0.
    + apply NoDup_dict_keys.
  - rewrite (resolve_keys_unvisited wards _ _ _ i Hr) in Hv; [congruence |].
    rewrite elem_of_dict_keys, Hd. by intros [? ?].
Qed.

(** C3. [resolve] against a Wards collection. A WardInfo key that the
    collection does not contain is no error: it is skipped, and if no
    WardInfo key of the ward is contained the ward is returned unchanged.
    The call fails when the index looked up for a contained key is already
    an integer key of the same map. On success the WardInfo keys that
    remain are exactly those that the collection does not contain, with
    their values; every contained key has moved, with its value, under its
    index; and the integer keys keep their values. *)
Theorem resolve_cases (wards : Wards) (self : Ward) :
  ((∀ i, is_Some (_workers self !! DInfo i) ∨ is_Some (_players self !! DInfo i)
         → wards_contains wards i = false)
   → resolve wards self = Ok self)
  ∧ (∀ i idx,
       wards_contains wards i = true → wards_index wards i = Ok idx →
       (is_Some (_workers self !! DInfo i) ∧ is_Some (_workers self !! DInt idx))
       ∨ (is_Some (_players self !! DInfo i) ∧ is_Some (_players self !! DInt idx))
       → is_ok (resolve wards self) = false)
  ∧ (∀ r, resolve wards self = Ok r →
       (∀ i, is_Some (_workers r !! DInfo i) ∨ is_Some (_players r !! DInfo i)
             → wards_contains wards i = false)
       ∧ (∀ i, wards_contains wards i = false →
               _workers r !! DInfo i = _workers self !! DInfo i
               ∧ _players r !! DInfo i = _players self !! DInfo i)
       ∧ (∀ i n, wards_contains wards i = true →
                 _workers self !! DInfo i = Some n →
                 ∃ idx, wards_index wards i = Ok idx
                        ∧ _workers r !! DInt idx = Some n)
       ∧ (∀ i w, wards_contains wards i = true →
                 _players self !! DInfo i = Some w →
                 ∃ idx, wards_index wards i = Ok idx
                        ∧ _players r !! DInt idx = Some w)
       ∧ (∀ z n, _workers self !! DInt z = Some n → _workers r !! DInt z = Some n)
       ∧ (∀ z w, _players self !! DInt z = Some w → _players r !! DInt z = Some w)).
Proof.
  split; [| split].
  - intros H. unfold resolve, resolve_dict.
    rewrite !resolve_keys_nothing;
      try (intros i Hi; apply H; apply elem_of_dict_keys in Hi; by auto).
    by destruct self.
  - intros i idx Hc Hi [[Hk Hcol] | [Hk Hcol]]; unfold resolve, resolve_dict.
    + assert (E := resolve_keys_collision wards (dict_keys (_workers self))
                     (_workers self) i idx
                     (proj2 (elem_of_dict_keys _ _) Hk) Hc Hi Hcol).
      by destruct (resolve_keys wards (dict_keys (_workers self)) (_workers self)).
    + assert (E := resolve_keys_collision wards (dict_keys (_players self))
                     (_players self) i idx
                     (proj2 (elem_of_dict_keys _ _) Hk) Hc Hi Hcol).
      destruct (resolve_keys wards (dict_keys (_workers self)) (_workers self));
        [| done].
      by destruct (resolve_keys wards (dict_keys (_players self)) (_players self)).
  - intros r Hr. apply resolve_unfold in Hr as [Hw Hp].
    repeat split.
    + intros i [H | H]; eauto using resolve_dict_remaining.
    + eauto using resolve_keys_uncontained.
    + eauto using resolve_keys_uncontained.
    + intros i n Hc Hn.
      eapply resolve_keys_contained; eauto.
      apply elem_of_dict_keys. by exists n.
    + intros i w Hc Hn.
      eapply resolve_keys_contained; eauto.
      apply elem_of_dict_keys. by exists w.
    + eauto using resolve_keys_ints.
    + eauto using resolve_keys_ints.
Qed.

(** Instance of C3: a key that the collection does not know. *)
Lemma resolve_cases_witness :
  resolve Inputs.no_wards Inputs.unresolved = Ok Inputs.unresolved.
Proof.
  apply (resolve_cases Inputs.no_wards Inputs.unresolved).
  intros i _. reflexivity.
Defined.

(** Counterexample to C3 as the specification words it: the only worker
    key of the ward is a WardInfo that the collection does not contain,
    yet [resolve] succeeds, and the ward it leaves is still unresolved. *)
Lemma resolve_missing_key_succeeds :
  _workers Inputs.unresolved !! DInfo Inputs.elsewhere = Some 3
  ∧ wards_contains Inputs.no_wards Inputs.elsewhere = false
  ∧ resolve Inputs.no_wards Inputs.unresolved = Ok Inputs.unresolved
  ∧ is_resolved Inputs.unresolved = false.
Proof. repeat split; reflexivity. Qed.

(** Instance of the collision case: the index of [elsewhere] is 2 and the
    ward already has a link to ward 2. *)
Lemma resolve_collision_example :
  resolve Inputs.two_wards Inputs.doubled = Raise KeyError.
Proof. reflexivity. Qed.

(** ** Stage dispatch *)

(** C7. For a recognised stage, [get_functions] calls the mover, then the
    iterator, then the mixer, then the extractor, each with the same
    keyword bundle and each in the world left by the one before, and
    returns the four lists concatenated in that order; for any other stage
    it raises [ValueError] without calling a plugin. *)
Theorem get_functions_concat {MetaFunction Shared World : Type}
    (stage : string) (shared : Shared)
    (iterator extractor mixer mover : @Dispatch.Plugin MetaFunction Shared World)
    (w : World) :
  (stage ∈ Dispatch.stages →
   ∀ fm fi fx fe w1 w2 w3 w4,
     let kwargs := Dispatch.mkKwargs stage shared in
     mover kwargs w = (Ok fm, w1) →
     iterator kwargs w1 = (Ok fi, w2) →
     mixer kwargs w2 = (Ok fx, w3) →
     extractor kwargs w3 = (Ok fe, w4) →
     Dispatch.get_functions stage shared iterator extractor mixer mover w
     = (Ok (fm ++ fi ++ fx ++ fe), w4))
  ∧ (stage ∉ Dispatch.stages →
     Dispatch.get_functions stage shared iterator extractor mixer mover w
     = (Raise ValueError, w)).
Proof.
  split.
  - intros Hin fm fi fx fe w1 w2 w3 w4 kwargs Hm Hi Hx He.
    unfold Dispatch.get_functions.
    rewrite bool_decide_eq_true_2 by done. cbn [negb].
    fold kwargs. rewrite Hm, Hi, Hx, He.
    by rewrite <- !app_assoc.
  - intros Hout. unfold Dispatch.get_functions.
    by rewrite bool_decide_eq_false_2.
Qed.

(** Instance of C7 on the sample plugins: the calls are made in the order
    mover, iterator, mixer, extractor. *)
Lemma get_functions_concat_witness :
  Dispatch.get_functions "infect" () Samples.iterator Samples.extractor
    Samples.mixer Samples.mover []
  = (Ok ["move_default"; "advance_foi"; "advance_play"; "merge_core";
         "output_core"],
     ["mover"; "iterator"; "mixer"; "extractor"]).
Proof.
  refine (proj1 (get_functions_concat "infect" () Samples.iterator
                   Samples.extractor Samples.mixer Samples.mover []) _
            ["move_default"] ["advance_foi"; "advance_play"]
            ["merge_core"] ["output_core"]
            ["mover"] ["mover"; "iterator"] ["mover"; "iterator"; "mixer"]
            ["mover"; "iterator"; "mixer"; "extractor"]
            eq_refl eq_refl eq_refl eq_refl).
  unfold Dispatch.stages. set_solver.
Defined.

(** ** Networks.build *)

Lemma specialise_all_spec (specialise : Network → Demographic → result Network)
    (network : Network) (ds : list Demographic) :
  ∀ acc r,
    specialise_all specialise network ds acc = Ok r →
    ∃ ns, r = acc ++ ns
          ∧ Forall2 (fun d n => specialise network d = Ok n) ds ns.
Proof.
  induction ds as [| d rest IH]; intros acc r H; cbn in H.
  - exists []. split; [by simplify_eq; rewrite app_nil_r | constructor].
  - destruct (specialise network d) as [n |] eqn:Hd; [| done]. cbn in H.
    destruct (IH _ _ H) as [ns [-> HF]].
    exists (n :: ns). split; [by rewrite <- app_assoc | by constructor].
Qed.

Lemma specialise_all_total (specialise : Network → Demographic → result Network)
    (network : Network) (ds : list Demographic) :
  Forall (fun d => is_ok (specialise network d) = true) ds →
  ∀ acc, is_ok (specialise_all specialise network ds acc) = true.
Proof.
  induction 1 as [| d rest Hd _ IH]; intros acc; cbn; [done |].
  destruct (specialise network d); [| done]. cbn. apply IH.
Qed.

(** C10. [Networks.build] raises [ValueError] when the demographics are
    [None] or fewer than two. When it returns, the result has the passed
    network as [overall], the passed demographics, and one subnet per
    demographic, in order, each the specialisation of the network for that
    demographic; and it does return whenever there are at least two
    demographics and every specialisation succeeds. *)
Theorem build_cases (specialise : Network → Demographic → result Network)
    (network : Network) (given : option (list Demographic)) :
  (given = None
   ∨ (∃ ds, given = Some ds ∧ (length ds < 2)%nat)
   → build specialise network given = Raise ValueError)
  ∧ (∀ r, build specialise network given = Ok r →
       ∃ ds, given = Some ds
             ∧ (2 ≤ length ds)%nat
             ∧ overall r = Some network
             ∧ demographics r = Some ds
             ∧ length (subnets r) = length ds
             ∧ Forall2 (fun d n => specialise network d = Ok n)
                       ds (subnets r))
  ∧ (∀ ds, given = Some ds → (2 ≤ length ds)%nat →
       Forall (fun d => is_ok (specialise network d) = true) ds →
       is_ok (build specialise network given) = true).
Proof.
  split; [| split].
  - intros [-> | [ds [-> Hlen]]]; cbn; [done |].
    by rewrite bool_decide_eq_true_2.
  - intros r H. destruct given as [ds |]; [| done]. cbn in H.
    case_bool_decide as Hlen; [done |].
    destruct (specialise_all specialise network ds []) as [ns |] eqn:Hns;
      [| done].
    cbn in H. simplify_eq.
    destruct (specialise_all_spec _ _ _ _ _ Hns) as [ns' [-> HF]].
    exists ds. cbn. repeat split; try done; [lia |].
    symmetry. by eapply Forall2_length.
  - intros ds -> Hlen Hall. cbn.
    rewrite bool_decide_eq_false_2 by lia.
    pose proof (specialise_all_total specialise network ds Hall []) as Hok.
    by destruct (specialise_all specialise network ds []).
Qed.

(** Instance of C10: a single demographic is refused. *)
Lemma build_cases_witness :
  build Samples.plain_specialise Inputs.small_network
    (Some [mkDemographic "home"]) = Raise ValueError.
Proof.
  apply (proj1 (build_cases Samples.plain_specialise Inputs.small_network
                  (Some [mkDemographic "home"]))).
  right. exists [mkDemographic "home"]. split; [reflexivity | cbn; lia].
Defined.

(** ** Custom mixers *)

Section PrependCore.

Context {MetaFunction : Type} `{EqDecision MetaFunction}.

Implicit Types (core custom : list MetaFunction).

(** The backwards index loop is a right fold over the visited prefix. *)
Lemma prepend_core_foldr core : ∀ n custom,
  (n ≤ length core)%nat →
  Mixer.prepend_core core n custom
  = foldr Mixer.prepend_missing custom (take n core).
Proof.
  induction n as [| i IH]; intros custom Hn; cbn [Mixer.prepend_core].
  - by rewrite take_0.
  - destruct (core !! i) as [f |] eqn:Hf.
    + rewrite IH by lia.
      rewrite (take_S_r _ _ _ Hf), foldr_app. done.
    + apply lookup_ge_None in Hf. lia.
Qed.

Lemma foldr_prepend_missing core custom :
  ∃ prefix,
    foldr Mixer.prepend_missing custom core = prefix ++ custom
    ∧ prefix `sublist_of` core
    ∧ (∀ f, f ∈ prefix ↔ f ∈ core ∧ f ∉ custom)
    ∧ (NoDup core → prefix = filter (fun f => f ∉ custom) core).
Proof.
  induction core as [| c core IH].
  - exists []. cbn. split; [done |]. split; [done |]. split; [| done].
    intros f. split.
    + intros Hf. by apply elem_of_nil in Hf.
    + intros [Hf _]. by apply elem_of_nil in Hf.
  - destruct IH as [prefix [Heq [Hsub [Hmem Hfil]]]].
    cbn [foldr]. rewrite Heq. unfold Mixer.prepend_missing at 1.
    case_bool_decide as Hin.
    + exists prefix. split; [done |]. split; [by apply sublist_cons |].
      assert (Hc : c ∉ custom → c ∈ prefix).
      { intros Hnc. apply elem_of_app in Hin as [Hp | Hp]; done. }
      split.
      * intros f. rewrite elem_of_cons. split.
        -- intros Hf. apply Hmem in Hf as [Hf Hnc]. auto.
        -- intros [[-> | Hf] Hnc]; [by apply Hc | by apply Hmem].
      * intros Hnd. apply NoDup_cons in Hnd as [Hnotin Hnd].
        rewrite filter_cons_False; [by apply Hfil |].
        intros Hnc. apply Hnotin. by apply (Hmem c), Hc.
    + exists (c :: prefix). split; [done |].
      split; [by apply sublist_skip |].
      assert (Hnc : c ∉ custom).
      { intros Hf. apply Hin, elem_of_app. by right. }
      split.
      * intros f. rewrite !elem_of_cons, Hmem. split.
        -- intros [-> | [Hf Hc]]; auto.
        -- intros [[-> | Hf] Hc]; auto.
      * intros Hnd. apply NoDup_cons in Hnd as [Hnotin Hnd].
        rewrite filter_cons_True by done. by rewrite <- Hfil.
Qed.

End PrependCore.

(** C8. [mix_custom] outside of setup, when [merge_core] and the custom
    function both return lists: the result is the custom list with a
    prefix in front of it; the prefix is a sub-sequence of the core list
    (so the core order is kept) and holds exactly the core functions that
    the custom list does not contain, hence every core function is in the
    result; when the core list has no repetition the prefix is the core
    list filtered by absence from the custom list. *)
Theorem mix_custom_prepends {MetaFunction : Type} `{EqDecision MetaFunction}
    {Kw : Type} (merge_core custom_function : @Mixer.MixerFn MetaFunction Kw)
    (needs_setup : bool) (kwargs : Kw) (core custom : list MetaFunction) :
  merge_core false kwargs = Ok (Some core) →
  custom_function false kwargs = Ok (Some custom) →
  ∃ prefix,
    Mixer.mix_custom merge_core custom_function needs_setup false kwargs
    = Ok (prefix ++ custom)
    ∧ prefix `sublist_of` core
    ∧ (∀ f, f ∈ prefix ↔ f ∈ core ∧ f ∉ custom)
    ∧ (∀ f, f ∈ core → f ∈ prefix ++ custom)
    ∧ (NoDup core → prefix = filter (fun f => f ∉ custom) core).
Proof.
  intros Hcore Hcustom.
  assert (Hall : ∀ prefix,
            (∀ f, f ∈ prefix ↔ f ∈ core ∧ f ∉ custom) →
            ∀ f, f ∈ core → f ∈ prefix ++ custom).
  { intros prefix Hmem f Hf. apply elem_of_app.
    destruct (decide (f ∈ custom)) as [Hc | Hc]; [by right |].
    left. by apply Hmem. }
  unfold Mixer.mix_custom. rewrite Hcore, Hcustom. cbn.
  destruct custom as [| x custom'].
  - exists core. rewrite app_nil_r.
    assert (Hmem : ∀ f, f ∈ core ↔ f ∈ core ∧ f ∉ []).
    { intros f. split; [| by intros [? _]].
      intros Hf. split; [done |]. apply not_elem_of_nil. }
    split; [by destruct core |]. split; [done |]. split; [done |].
    split; [done |].
    intros _. clear. induction core as [| c core IH]; [done |].
    rewrite filter_cons_True by apply not_elem_of_nil. by rewrite <- IH.
  - destruct (foldr_prepend_missing core (x :: custom'))
      as [prefix [Heq [Hsub [Hmem Hfil]]]].
    exists prefix. split.
    + destruct core as [| c core']; [by cbn in Heq; rewrite <- Heq |].
      rewrite prepend_core_foldr by done.
      by rewrite firstn_all, Heq.
    + split; [done |]. split; [done |]. split; [by apply Hall | done].
Qed.

(** Instance of C8: the core function is put in front of the custom one. *)
Lemma mix_custom_prepends_witness :
  Mixer.mix_custom Samples.merge_core Samples.mix_matrix false false ()
  = Ok ["merge_core_foi"; "merge_matrix"].
Proof.
  destruct (mix_custom_prepends Samples.merge_core Samples.mix_matrix false ()
              ["merge_core_foi"] ["merge_matrix"] eq_refl eq_refl)
    as [prefix [Heq [_ [_ [_ Hfil]]]]].
  rewrite Heq, Hfil; [reflexivity | apply NoDup_singleton].
Defined.

(** ** Instances for the player-weight and player-list claims *)

(** Instance of C6: a weight of zero is always a no-op. *)
Lemma add_player_weight_cases_witness :
  add_player_weight 0 (ArgInt 3) Inputs.half_away = Ok Inputs.half_away.
Proof.
  assert (H0 : (0 <= 0)%Q) by (unfold Qle; cbn; lia).
  assert (Hd : _resolve_destination Inputs.half_away (ArgInt 3) = Ok (DInt 3))
    by reflexivity.
  apply (proj1 (add_player_weight_cases Inputs.half_away 0 (ArgInt 3)
                  (DInt 3) H0 Hd)).
  unfold Qlt, tiny; cbn; lia.
Defined.

(** Counterexample to C6 as the specification words it: with no residual
    left, a weight of exactly [1e-10] exceeds the residual by [1e-10] and
    not by more, and [add_player_weight] raises. *)
Lemma add_player_weight_boundary_raises :
  _player_total Inputs.all_away = 0%Q
  ∧ ¬ (tiny < tiny - _player_total Inputs.all_away)%Q
  ∧ (Qabs (tiny - _player_total Inputs.all_away) <= tiny)%Q
  ∧ add_player_weight tiny (ArgInt 3) Inputs.all_away = Raise ValueError.
Proof.
  split; [reflexivity |]. split; [| split; [| reflexivity]].
  - unfold Qlt, tiny; cbn; lia.
  - unfold Qle, tiny; cbn; lia.
Qed.

(** Instance of C9: ward 1 with all of its play weight in ward 2. *)
Lemma get_player_lists_cases_witness :
  ∃ ks ws, get_player_lists false Inputs.all_away = Ok (ks, ws) ∧ 1 ∈ ks.
Proof.
  assert (Hint : Forall (fun k => is_int k = true)
                   (dict_keys (_players Inputs.all_away))).
  { vm_compute. repeat constructor. }
  destruct (get_player_lists_cases Inputs.all_away 1 eq_refl Hint)
    as [ks [ks0 [Heq [Hmem _]]]].
  exists ks. eexists. split; [exact Heq |].
  apply Hmem. right. split; reflexivity.
Defined.

(** Counterexample to C9 as the specification words it: the ward is
    resolved, auto-assigns, has no residual and no explicit self-play
    entry, and its own id 1 is still returned, with weight [0.0 + 0]. *)
Lemma get_player_lists_zero_residual_self :
  is_resolved Inputs.all_away = true
  ∧ _auto_assign_players Inputs.all_away = true
  ∧ _player_total Inputs.all_away = 0%Q
  ∧ _players Inputs.all_away !! DInt 1 = None
  ∧ get_player_lists false Inputs.all_away
    = Ok ([1; 2], [(0 + 0)%Q; 1%Q]).
Proof. repeat split; reflexivity. Qed.

(** ** Additional seeding *)

Lemma py_slot_nonneg {A} (l : list A) (i : Z) (a : A) :
  0 ≤ i → l !! Z.to_nat i = Some a → py_slot l i = Ok (Z.to_nat i).
Proof.
  intros Hi Ha. apply lookup_lt_Some in Ha. unfold py_slot.
  rewrite (bool_decide_eq_false_2 (i < 0)) by lia.
  by rewrite bool_decide_eq_true_2 by lia.
Qed.

Lemma py_index_nonneg {A} (l : list A) (i : Z) (a : A) :
  0 ≤ i → l !! Z.to_nat i = Some a → py_index l i = Ok a.
Proof.
  intros Hi Ha. unfold py_index.
  rewrite (py_slot_nonneg l i a Hi Ha), bind_Ok. by rewrite Ha.
Qed.

Lemma py_setitem_nonneg {A} (l : list A) (i : Z) (a b : A) :
  0 ≤ i → l !! Z.to_nat i = Some a →
  py_setitem l i b = Ok (<[Z.to_nat i := b]> l).
Proof.
  intros Hi Ha. unfold py_setitem.
  by rewrite (py_slot_nonneg l i a Hi Ha), bind_Ok.
Qed.

Section AdvanceSingle.

Import Seeding.

Variable get_node_index : Network → Z → result Z.
Variable get_index : list Demographic → Z → result Z.
Variable get_style : string → result unit.

Local Abbreviation advance :=
  (advance_additional get_node_index get_index get_style).

(** Unfolding of the loop body down to the calls of the parameters. *)
Local Ltac run_event :=
  cbv [mbind M_bind mret M_ret select_network current get put lift
         Console.recorded Console.print Console.rule Console.warning
         Console.error try_except seed_try write_play_suscept read_play
         write_play st_local st_network st_infections st_console fst snd].

(** C1. [advance_additional] on a single [Network], at an event whose
    ward resolves to a node with [suscept] play susceptibles. An event of
    another day is passed over. On the matching day, when the requested
    number exceeds [suscept], nothing is capped: whatever the console
    does, the event leaves the susceptibles and the infections as they
    are; [Console.warning] is called, and when the console prints in the
    style ["warning"] the warning is recorded and the remaining events
    are processed. Otherwise [play_suscept[ward]] goes down and
    [play_infections[0][ward]] goes up by the requested number, and the
    remaining events are processed. *)
Theorem advance_additional_event (net : Network) (inf : Infections)
    (day : Z) (seed : Seed) (rest : list Seed) (log : list ConsoleMsg)
    (ward : Z) (suscept : Q) :
  get_node_index net (seed_ward seed) = Ok ward →
  0 ≤ ward →
  play_suscept (nodes net) !! Z.to_nat ward = Some suscept →
  let num := seed_num seed in
  (seed_day seed ≠ day →
   advance (ANetwork net) day inf (seed :: rest) log
   = advance (ANetwork net) day inf rest log)
  ∧ (seed_day seed = day → (suscept < inject_Z num)%Q →
     (∃ r log',
        advance (ANetwork net) day inf [seed] log
        = (r, mkState (ANetwork net) inf RefArg log'))
     ∧ (get_style "warning" = Ok () →
        advance (ANetwork net) day inf (seed :: rest) log
        = advance (ANetwork net) day inf rest
            (log ++ [Printed Empty_text None]
                 ++ [Printed (Rule (Some "WARNING")) None]
                 ++ [Printed Text_not_enough_susceptibles (Some "warning")]
                 ++ [Printed Empty_text None]
                 ++ [Printed (Rule None) None])))
  ∧ (seed_day seed = day → (inject_Z num <= suscept)%Q →
     ∀ row v,
       play inf !! 0%nat = Some row →
       row !! Z.to_nat ward = Some v →
       advance (ANetwork net) day inf (seed :: rest) log
       = advance
           (ANetwork
              (mkNetwork
                 (mkNodes (<[Z.to_nat ward := (suscept - inject_Z num)%Q]>
                             (play_suscept (nodes net))))))
           day
           (mkInfections (work inf)
              (<[0%nat := <[Z.to_nat ward := v + num]> row]> (play inf))
              (sub_works inf) (sub_plays inf) (subinfs inf))
           rest
           (log ++ [Printed (Text_seeding None ward num) None])).
Proof.
  intros Hward H0 Hs num.
  unfold advance_additional. cbn [seed_loop].
  split; [| split].
  - intros Hday. unfold seed_event.
    rewrite bool_decide_eq_false_2 by done. reflexivity.
  - intros Hday Hlt. unfold seed_event.
    rewrite bool_decide_eq_true_2 by done.
    run_event.
    rewrite Hward, (py_index_nonneg _ _ _ H0 Hs).
    fold num. rewrite (proj2 (Qltb_lt _ _) Hlt).
    split.
    + destruct (get_style "warning") as [[] |];
        [by eexists _, _ |].
      destruct (get_style "error") as [[] |]; by eexists _, _.
    + intros ->. by rewrite <- !app_assoc.
  - intros Hday Hge row v Hrow Hv. unfold seed_event.
    rewrite bool_decide_eq_true_2 by done.
    run_event.
    rewrite Hward, (py_index_nonneg _ _ _ H0 Hs).
    fold num. rewrite (proj2 (Qltb_ge _ _) Hge).
    rewrite (py_setitem_nonneg _ _ _ _ H0 Hs).
    run_event.
    rewrite (py_index_nonneg (play inf) 0 row) by done.
    rewrite (py_index_nonneg _ _ _ H0 Hv).
    rewrite (py_setitem_nonneg _ _ _ _ H0 Hv).
    rewrite (py_setitem_nonneg (play inf) 0 row) by done.
    reflexivity.
Qed.

End AdvanceSingle.

(** On a [Networks] whose infections carry no [subinfs] attribute (as
    [Infections.build] leaves them), the first event of the day cannot be
    applied: the read of [infections.subinfs] raises before the [try]
    block is entered. *)
Lemma advance_additional_networks_raises
    (get_node_index : Network → Z → result Z)
    (get_index : list Demographic → Z → result Z)
    (get_style : string → result unit)
    (ns : Networks) (inf : Seeding.Infections) (day : Z)
    (seed : Seeding.Seed) (rest : list Seeding.Seed)
    (log : list Seeding.ConsoleMsg) :
  Seeding.seed_day seed = day →
  Seeding.subinfs inf = None →
  is_ok (Seeding.advance_additional get_node_index get_index get_style
           (Seeding.ANetworks ns) day inf (seed :: rest) log).1 = false.
Proof.
  intros Hday Hsub. unfold Seeding.advance_additional.
  cbn [Seeding.seed_loop]. unfold Seeding.seed_event.
  rewrite bool_decide_eq_true_2 by done.
  cbv [mbind Seeding.M_bind mret Seeding.M_ret Seeding.select_network
       Seeding.current Seeding.get Seeding.put Seeding.lift
       Seeding.st_local Seeding.st_network Seeding.st_infections
       Seeding.st_console fst snd].
  destruct (Seeding.seed_demographic seed) as [d |].
  - destruct (demographics ns) as [ds |]; [| done].
    destruct (get_index ds d) as [k |]; [| done].
    destruct (py_slot (subnets ns) k); [| done].
    by rewrite Hsub.
  - destruct (py_slot (subnets ns) 0); [| done].
    by rewrite Hsub.
Qed.

(** Instance of C1: three seeds into ward 2, which has four susceptibles. *)
Lemma advance_additional_event_witness :
  Seeding.advance_additional Inputs.two_node_index Inputs.no_demographics
    Inputs.themeless
    (Seeding.ANetwork Inputs.small_network) 10 Inputs.small_infections
    [Seeding.mkSeed 10 2 3 None] []
  = (Ok (),
     Seeding.mkState
       (Seeding.ANetwork (mkNetwork (mkNodes [0%Q; 10%Q; 1%Q])))
       (Seeding.mkInfections [] [[0; 0; 3]; [0; 0; 0]] None None None)
       Seeding.RefArg
       [Seeding.Printed (Seeding.Text_seeding None 2 3) None]).
Proof.
  assert (H0 : 0 ≤ 2) by lia.
  assert (Hge : (inject_Z 3 <= 4)%Q) by (unfold Qle; cbn; lia).
  rewrite (proj2 (proj2 (advance_additional_event
                           Inputs.two_node_index Inputs.no_demographics
                           Inputs.themeless
                           Inputs.small_network Inputs.small_infections
                           10 (Seeding.mkSeed 10 2 3 None) [] [] 2 4%Q
                           eq_refl H0 eq_refl))
             eq_refl Hge [0; 0; 0] 0 eq_refl eq_refl).
  reflexivity.
Defined.

(** Counterexample to C1 as the specification words it: five seeds are
    requested in ward 2, which has four play susceptibles. Nothing is
    capped: the susceptibles stay at four and no infection is recorded,
    where a capped seed would have moved four individuals. This is so on
    a console that prints the warning, where the event is skipped, and on
    a console without the styles, where the call ends with the exception
    of the console after the two rules. *)
Lemma advance_additional_shortfall_skips :
  play_suscept (nodes Inputs.small_network) !! 2%nat = Some 4%Q
  ∧ Seeding.advance_additional Inputs.two_node_index Inputs.no_demographics
      Inputs.themed
      (Seeding.ANetwork Inputs.small_network) 10 Inputs.small_infections
      [Seeding.mkSeed 10 2 5 None] []
    = (Ok (),
       Seeding.mkState (Seeding.ANetwork Inputs.small_network)
         Inputs.small_infections Seeding.RefArg
         [Seeding.Printed Seeding.Empty_text None;
          Seeding.Printed (Seeding.Rule (Some "WARNING")) None;
          Seeding.Printed Seeding.Text_not_enough_susceptibles
            (Some "warning");
          Seeding.Printed Seeding.Empty_text None;
          Seeding.Printed (Seeding.Rule None) None])
  ∧ Seeding.advance_additional Inputs.two_node_index Inputs.no_demographics
      Inputs.themeless
      (Seeding.ANetwork Inputs.small_network) 10 Inputs.small_infections
      [Seeding.mkSeed 10 2 5 None] []
    = (Raise MissingStyle,
       Seeding.mkState (Seeding.ANetwork Inputs.small_network)
         Inputs.small_infections Seeding.RefArg
         [Seeding.Printed Seeding.Empty_text None;
          Seeding.Printed (Seeding.Rule (Some "WARNING")) None;
          Seeding.Printed Seeding.Empty_text None;
          Seeding.Printed (Seeding.Rule (Some "ERROR")) None]).
Proof. split; [| split]; reflexivity. Qed.

(** ** Serialisation round trip *)

Section Rebuild.

Context {V : Type}.
Variable check : V → result V.
Variable f : Z → V.

(** Reading back the pairs written from a list of ids. *)
Local Abbreviation reinsert :=
  (fun (acc : gmap Dest V) (z : Z) => <[DInt z := f z]> acc).



End Rebuild.






Lemma foldl_Qplus (l : list Q) :
  ∀ a, (foldl Qplus a l == a + foldr Qplus 0 l)%Q.
Proof.
  induction l as [| x l IH]; intros a; cbn; [ring |]. rewrite IH. ring.
Qed.

Lemma foldr_Qplus_perm (l l' : list Q) :
  l ≡ₚ l' → (foldr Qplus 0 l == foldr Qplus 0 l')%Q.
Proof.
  induction 1 as [| x l l' _ IH | x y l | l l' l'' _ IH1 _ IH2]; cbn.
  - reflexivity.
  - by rewrite IH.
  - ring.
  - by rewrite IH1.
Qed.




Section RoundTrip.

Context {InfoData : Type}.
Variable info_to_data : WardInfo → InfoData.
Variable info_from_data : InfoData → WardInfo.
Variable info_empty : InfoData.


End RoundTrip.



(** * Further properties of the ward builder *)

(** ** Sums over the link dictionaries *)

Lemma foldl_Zadd (l : list Z) : ∀ a, foldl Z.add a l = a + foldr Z.add 0 l.
Proof.
  induction l as [| x l IH]; intros a; cbn; [lia |]. rewrite IH. lia.
Qed.

Lemma foldr_Zadd_perm (l l' : list Z) :
  l ≡ₚ l' → foldr Z.add 0 l = foldr Z.add 0 l'.
Proof. induction 1; cbn; lia. Qed.

Lemma sum_Z_insert_fresh (m : gmap Dest Z) (k : Dest) (v : Z) :
  m !! k = None → sum_Z (<[k := v]> m) = sum_Z m + v.
Proof.
  intros Hk. unfold sum_Z, dict_values. rewrite !foldl_Zadd.
  rewrite (foldr_Zadd_perm _ (v :: (map_to_list m).*2)); [cbn; lia |].
  by rewrite (map_to_list_insert m k v Hk).
Qed.

Lemma sum_Z_delete (m : gmap Dest Z) (k : Dest) (v : Z) :
  m !! k = Some v → sum_Z (delete k m) = sum_Z m - v.
Proof.
  intros Hk.
  rewrite <- (insert_delete_id m k v Hk) at 2.
  rewrite sum_Z_insert_fresh by apply lookup_delete_eq. lia.
Qed.

Lemma sum_Z_insert (m : gmap Dest Z) (k : Dest) (v : Z) :
  sum_Z (<[k := v]> m) = sum_Z m - default 0 (m !! k) + v.
Proof.
  destruct (m !! k) as [old |] eqn:Hk; cbn.
  - rewrite <- insert_delete_eq.
    rewrite sum_Z_insert_fresh by apply lookup_delete_eq.
    rewrite (sum_Z_delete m k old Hk). lia.
  - rewrite sum_Z_insert_fresh by done. lia.
Qed.

Lemma sum_Q_insert_fresh (m : gmap Dest Q) (k : Dest) (v : Q) :
  m !! k = None → (sum_Q (<[k := v]> m) == sum_Q m + v)%Q.
Proof.
  intros Hk. unfold sum_Q, dict_values. rewrite !foldl_Qplus.
  rewrite (foldr_Qplus_perm _ (v :: (map_to_list m).*2)); [cbn; ring |].
  by rewrite (map_to_list_insert m k v Hk).
Qed.

Lemma sum_Q_delete (m : gmap Dest Q) (k : Dest) (v : Q) :
  m !! k = Some v → (sum_Q (delete k m) == sum_Q m - v)%Q.
Proof.
  intros Hk.
  pose proof (sum_Q_insert_fresh (delete k m) k v (lookup_delete_eq m k)) as H.
  rewrite (insert_delete_id m k v Hk) in H. rewrite H. ring.
Qed.


(** The destination that an argument resolves to depends on the id and
    the info of the ward only. *)
Lemma resolve_destination_ext (a b : Ward) (dest : DestArg) :
  _id a = _id b → _info a = _info b →
  _resolve_destination a dest = _resolve_destination b dest.
Proof.
  intros Hid Hinfo. unfold _resolve_destination. by rewrite Hid, Hinfo.
Qed.

(** Resolution fails with [ValueError] only, and never yields an integer
    key below 1. *)
Lemma resolve_destination_outcome (self : Ward) (dest : DestArg) :
  _resolve_destination self dest = Raise ValueError
  ∨ (∃ i, _resolve_destination self dest = Ok (DInfo i))
  ∨ (∃ z, 0 < z ∧ _resolve_destination self dest = Ok (DInt z)).
Proof.
  assert (Hint : ∀ z, (_as_positive_integer z false ≫= λ z', Ok (DInt z'))
                      = Raise ValueError
                      ∨ (0 < z ∧ (_as_positive_integer z false
                                  ≫= λ z', Ok (DInt z')) = Ok (DInt z))).
  { intros z. unfold _as_positive_integer.
    repeat case_bool_decide; cbn; auto. right. split; [lia | done]. }
  unfold _resolve_destination.
  destruct dest as [| z | i | other]; cbn.
  - destruct (_id self) as [z |]; cbn.
    + destruct (Hint z) as [-> | [Hz ->]]; eauto.
    + destruct (WardInfo_is_null (_info self)); cbn; eauto.
  - destruct (Hint z) as [-> | [Hz ->]]; eauto.
  - eauto.
  - destruct (_id other) as [oid |]; cbn.
    + destruct (bool_decide (Some oid = _id self)
                && negb (bool_decide (_info self = _info other))); cbn; auto.
      destruct (Hint oid) as [-> | [Hz ->]]; eauto.
    + destruct (_id self) as [z |]; cbn; [| eauto].
      case_bool_decide; cbn; [| eauto].
      destruct (Hint z) as [-> | [Hz ->]]; eauto.
Qed.

(** ** Workers *)

(** X1. [add_workers] with a non-negative number and a destination that
    resolves: the link to the destination grows by the number, and so does
    [num_workers]; every other link keeps its count; a ward whose counts
    sum to [num_workers] still does afterwards. *)
Theorem add_workers_effect (self : Ward) (n : Z) (dest : DestArg) (g : Z) :
  0 ≤ n → get_workers dest self = Ok g →
  ∃ r, add_workers n dest self = Ok r
       ∧ get_workers dest r = Ok (g + n)
       ∧ _num_workers r = _num_workers self + n
       ∧ (∀ other d d', _resolve_destination self dest = Ok d →
                        _resolve_destination self other = Ok d' → d' ≠ d →
                        get_workers other r = get_workers other self)
       ∧ (sum_Z (_workers self) = _num_workers self →
          sum_Z (_workers r) = _num_workers r).
Proof.
  intros Hn Hg. unfold get_workers in Hg.
  destruct (_resolve_destination self dest) as [d |] eqn:Hd; [| done].
  cbn in Hg. simplify_eq.
  eexists. split.
  { unfold add_workers. rewrite Hd, bind_Ok, (nonneg_integer_ok n Hn), bind_Ok.
    reflexivity. }
  assert (Hext : ∀ a, _resolve_destination
                        (set_num_workers_field (_num_workers self + n)
                           (set_workers
                              <[d := default 0 (_workers self !! d) + n]> self))
                        a = _resolve_destination self a).
  { intros a. by apply resolve_destination_ext. }
  split; [| split; [done | split]].
  - unfold get_workers. rewrite Hext, Hd, bind_Ok. cbn.
    by rewrite lookup_insert_eq.
  - intros other d0 d' Hd0 Hd' Hne. simplify_eq.
    unfold get_workers. rewrite Hext, Hd', !bind_Ok. cbn.
    by rewrite lookup_insert_ne.
  - intros Hsum. cbn. rewrite sum_Z_insert. lia.
Qed.

(** X2. [subtract_workers] never leaves a link behind: whenever it
    returns, the destination has no entry in the workers map, every other
    entry is as before, and a ward whose counts sum to [num_workers] still
    does afterwards. *)
Theorem subtract_workers_returns (self r : Ward) (n : Z) (dest : DestArg) :
  subtract_workers n dest self = Ok r →
  ∃ d, _resolve_destination self dest = Ok d
       ∧ _workers r = delete d (_workers self)
       ∧ _num_workers r = _num_workers self - default 0 (_workers self !! d)
       ∧ (sum_Z (_workers self) = _num_workers self →
          sum_Z (_workers r) = _num_workers r).
Proof.
  unfold subtract_workers. intros H.
  destruct (_resolve_destination self dest) as [d |] eqn:Hd; [| done].
  exists d. split; [done |]. rewrite bind_Ok in H.
  destruct (_as_positive_integer n true) as [n' |]; [| done].
  rewrite bind_Ok in H.
  destruct (_workers self !! d) as [cur |] eqn:Hcur.
  - case_bool_decide; [| done]. simplify_eq. cbn.
    split; [done |]. split; [done |].
    intros Hsum. rewrite (sum_Z_delete _ _ _ Hcur). lia.
  - simplify_eq. cbn. rewrite delete_id by done.
    split; [done |]. split; [lia | done].
Qed.

(** X3. Adding workers to a destination that has no link yet and taking
    the same number away again gives the ward back. *)
Theorem add_then_subtract_workers (self : Ward) (n : Z) (dest : DestArg)
    (d : Dest) :
  0 ≤ n → _resolve_destination self dest = Ok d →
  _workers self !! d = None →
  add_workers n dest self ≫= subtract_workers n dest = Ok self.
Proof.
  intros Hn Hd Hfresh. unfold add_workers.
  rewrite Hd, bind_Ok, (nonneg_integer_ok n Hn), !bind_Ok.
  unfold subtract_workers.
  rewrite (resolve_destination_ext _ self dest), Hd, bind_Ok by done.
  rewrite (nonneg_integer_ok n Hn), bind_Ok.
  cbn [set_workers set_num_workers_field _workers _num_workers].
  rewrite lookup_insert_eq, Hfresh. cbn [default].
  rewrite bool_decide_eq_true_2 by lia.
  cbn [set_workers set_num_workers_field _id _info _workers _players
       _player_total _num_workers _num_players _pos _auto_assign_players].
  destruct self as [sid sinfo ws ps pt nw np pos auto].
  unfold set_workers, set_num_workers_field.
  cbn [_id _info _workers _players _player_total _num_workers _num_players
       _pos _auto_assign_players] in *.
  rewrite delete_insert_id by done. do 2 f_equal. lia.
Qed.

(** X4. [set_num_workers] cannot lower the number of workers: a number
    below [num_workers] always ends in [ValueError]. The current number is
    accepted and changes nothing; a larger number, on a ward whose own
    destination resolves, adds the difference to the home link. *)
Theorem set_num_workers_cases (self : Ward) (number : Z) :
  (number < _num_workers self →
   set_num_workers number self = Raise ValueError)
  ∧ (number = _num_workers self → 0 ≤ number →
     set_num_workers number self = Ok self)
  ∧ (_num_workers self < number → 0 ≤ number →
     ∀ d, _resolve_destination self ArgNone = Ok d →
     ∃ r, set_num_workers number self = Ok r
          ∧ _num_workers r = number
          ∧ _workers r
            = <[d := default 0 (_workers self !! d)
                     + (number - _num_workers self)]> (_workers self)).
Proof.
  unfold set_num_workers. split; [| split].
  - intros Hlt. unfold _as_positive_integer at 1.
    case_bool_decide as Hneg; [done |]. rewrite andb_false_r, bind_Ok.
    rewrite bool_decide_eq_false_2 by lia.
    rewrite bool_decide_eq_true_2 by lia.
    assert (Hdelta : _as_positive_integer (number - _num_workers self) true
                     = Raise ValueError).
    { unfold _as_positive_integer. by rewrite bool_decide_eq_true_2 by lia. }
    unfold get_workers, subtract_workers. rewrite Hdelta.
    destruct (resolve_destination_outcome self ArgNone)
      as [Hd | [[i Hd] | [z [_ Hd]]]]; rewrite Hd; [done | |];
      rewrite !bind_Ok; by case_bool_decide.
  - intros -> Hn. rewrite (nonneg_integer_ok _ Hn), bind_Ok.
    by rewrite !bool_decide_eq_false_2 by lia.
  - intros Hgt Hn d Hd. rewrite (nonneg_integer_ok _ Hn), bind_Ok.
    rewrite bool_decide_eq_true_2 by lia.
    unfold add_workers. rewrite Hd, bind_Ok.
    rewrite nonneg_integer_ok, bind_Ok by lia.
    eexists. split; [done |]. cbn. split; [lia | done].
Qed.

(** ** Player weights *)



(** X6. Taking away at least the whole weight of a link: the link is
    removed and its weight goes back to the residual, so that on a ward
    whose weights and residual sum to 1 they still do afterwards, to
    within [1e-10] (the residual is set to exactly 1 when it comes within
    [1e-10] of it). *)
Theorem subtract_player_weight_whole (self : Ward) (w : Q) (dest : DestArg)
    (d : Dest) (cur : Q) :
  (tiny <= w)%Q → _resolve_destination self dest = Ok d →
  _players self !! d = Some cur → (cur <= w)%Q →
  (sum_Q (_players self) + _player_total self == 1)%Q →
  ∃ r, subtract_player_weight w dest self = Ok r
       ∧ _players r = delete d (_players self)
       ∧ (Qabs (sum_Q (_players r) + _player_total r - 1) < tiny)%Q.
Proof.
  intros Hw Hd Hcur Hle Hone.
  rewrite (subtract_player_weight_present self w dest d cur Hw Hd Hcur).
  eexists. split; [reflexivity |].
  cbn [set_player_total set_players _players _player_total].
  split; [done |].
  pose proof (sum_Q_delete _ _ _ Hcur) as Hdel.
  set (w' := if Qltb cur w then cur else w).
  assert (Hw' : (w' == cur)%Q).
  { subst w'. destruct (Qltb cur w) eqn:E; [reflexivity |].
    apply Qltb_ge in E. lra. }
  apply Qabs_lt_iff.
  destruct (Qltb (Qabs (_player_total self + w' - 1)) tiny) eqn:Hs.
  - apply Qltb_lt, Qabs_lt_iff in Hs. rewrite Hdel. lra.
  - rewrite Hdel. unfold tiny. lra.
Qed.

(** ** Changing the id *)

Lemma rekey_loop_absent {V} (old new : Dest) (keys : list Dest)
    (d : gmap Dest V) :
  old ∉ keys → rekey_loop old new keys d = Ok d.
Proof.
  induction keys as [| key rest IH]; intros Hnotin; [done |].
  apply not_elem_of_cons in Hnotin as [Hne Hrest]. cbn.
  rewrite bool_decide_eq_false_2 by done. rewrite bind_Ok. by apply IH.
Qed.

Lemma rekey_loop_present {V} (old new : Dest) (keys : list Dest) :
  ∀ (d : gmap Dest V) v,
    NoDup keys → old ∈ keys → d !! old = Some v →
    rekey_loop old new keys d = Ok (delete old (<[new := v]> d)).
Proof.
  induction keys as [| key rest IH]; intros d v Hnd Hin Hv.
  - by apply elem_of_nil in Hin.
  - apply NoDup_cons in Hnd as [Hnotin Hnd]. cbn.
    case_bool_decide as Hk.
    + subst key. unfold move_key. rewrite Hv, bind_Ok.
      by apply rekey_loop_absent.
    + rewrite bind_Ok. apply elem_of_cons in Hin as [-> | Hin]; [done |].
      by apply IH.
Qed.

(** The loop over the keys moves the entry of [old], if there is one. *)
Lemma rekey_spec {V} (old new : Dest) (d : gmap Dest V) :
  rekey old new d
  = Ok (match d !! old with
        | Some v => delete old (<[new := v]> d)
        | None => d
        end).
Proof.
  unfold rekey. destruct (d !! old) as [v |] eqn:Hv.
  - apply rekey_loop_present; [apply NoDup_dict_keys | | done].
    apply elem_of_dict_keys. by exists v.
  - apply rekey_loop_absent. rewrite elem_of_dict_keys, Hv. by intros [? ?].
Qed.

Lemma sum_Z_moved (d : gmap Dest Z) (old new : Dest) (v : Z) :
  d !! old = Some v → d !! new = None →
  sum_Z (delete old (<[new := v]> d)) = sum_Z d.
Proof.
  intros Hold Hnew.
  assert (old ≠ new) by congruence.
  rewrite (sum_Z_delete _ old v) by (by rewrite lookup_insert_ne).
  rewrite sum_Z_insert_fresh by done. lia.
Qed.

Lemma sum_Q_moved (d : gmap Dest Q) (old new : Dest) (v : Q) :
  d !! old = Some v → d !! new = None →
  (sum_Q (delete old (<[new := v]> d)) == sum_Q d)%Q.
Proof.
  intros Hold Hnew.
  assert (old ≠ new) by congruence.
  rewrite (sum_Q_delete _ old v) by (by rewrite lookup_insert_ne).
  rewrite sum_Q_insert_fresh by done. ring.
Qed.

(** What the loops of [set_id] do to one of the two maps when the new id
    is not a key yet: the entry under the old id moves to the new id;
    failing that, the entry under the ward's own info does; nothing else
    changes. *)
Lemma set_id_links {V} (m : gmap Dest V) (old : option Z) (info : WardInfo)
    (id : Z) :
  m !! DInt id = None → old ≠ Some id →
  ∃ m1 m',
    match old with
    | Some o => rekey (DInt o) (DInt id) m
    | None => Ok m
    end = Ok m1
    ∧ (if bool_decide (is_Some (m1 !! DInt id)) then Ok m1
       else rekey (DInfo info) (DInt id) m1) = Ok m'
    ∧ (∀ o v, old = Some o → m !! DInt o = Some v →
              m' !! DInt id = Some v ∧ m' !! DInt o = None)
    ∧ ((∀ o, old = Some o → m !! DInt o = None) →
       ∀ v, m !! DInfo info = Some v →
            m' !! DInt id = Some v ∧ m' !! DInfo info = None)
    ∧ (m' = m
       ∨ ∃ k v, m !! k = Some v ∧ k ≠ DInt id
                ∧ m' = delete k (<[DInt id := v]> m)).
Proof.
  intros Hfresh Hne.
  assert (Hlate : ∃ m',
            (if bool_decide (is_Some (m !! DInt id)) then Ok m
             else rekey (DInfo info) (DInt id) m) = Ok m'
            ∧ (∀ v, m !! DInfo info = Some v →
                    m' !! DInt id = Some v ∧ m' !! DInfo info = None)
            ∧ (m' = m
               ∨ ∃ k v, m !! k = Some v ∧ k ≠ DInt id
                        ∧ m' = delete k (<[DInt id := v]> m))).
  { rewrite bool_decide_eq_false_2 by (rewrite Hfresh; by intros [? ?]).
    rewrite rekey_spec. eexists. split; [reflexivity |].
    destruct (m !! DInfo info) as [v |] eqn:Hv.
    - split.
      + intros v' E. simplify_eq.
        rewrite lookup_delete_ne, lookup_insert_eq, lookup_delete_eq by done.
        done.
      + right. by exists (DInfo info), v.
    - split; [done | by left]. }
  destruct old as [o |]; [destruct (m !! DInt o) as [v |] eqn:Hv |].
  - assert (o ≠ id) by congruence.
    rewrite rekey_spec, Hv.
    exists (delete (DInt o) (<[DInt id := v]> m)),
           (delete (DInt o) (<[DInt id := v]> m)).
    assert (Hnew : delete (DInt o) (<[DInt id := v]> m) !! DInt id = Some v).
    { rewrite lookup_delete_ne by congruence. apply lookup_insert_eq. }
    split; [done |]. split.
    { rewrite bool_decide_eq_true_2; [done | by rewrite Hnew]. }
    split; [| split].
    + intros o' v' E Hv'. simplify_eq. split; [done |].
      apply lookup_delete_eq.
    + intros Hno. specialize (Hno o eq_refl). congruence.
    + right. exists (DInt o), v. split; [done |]. split; [congruence | done].
  - rewrite rekey_spec, Hv.
    destruct Hlate as [m' [Hm' [Hb He]]].
    exists m, m'. split; [done |]. split; [done |].
    split; [| split; [| done]].
    + intros o' v' E Hv'. simplify_eq.
    + intros _. exact Hb.
  - destruct Hlate as [m' [Hm' [Hb He]]].
    exists m, m'. split; [done |]. split; [done |].
    split; [| split; [| done]].
    + intros o' v' E. done.
    + intros _. exact Hb.
Qed.

(** X7. [set_id]: an id below 1 is refused with [ValueError], and so is
    an id other than the current one that is already a destination of the
    ward; the current id is accepted and changes nothing. Otherwise the
    ward takes the new id, its link to itself (the one keyed by the old
    id or, failing that, by the ward's own info) is re-keyed to the new
    id in the workers map and in the players map, each map is otherwise
    as it was (at most one entry has moved to the new id), and the sums
    of the workers and of the player weights are unchanged. *)
Theorem set_id_cases (self : Ward) (id : Z) :
  (id < 1 → set_id id self = Raise ValueError)
  ∧ (1 ≤ id → _id self = Some id → set_id id self = Ok self)
  ∧ (1 ≤ id → _id self ≠ Some id →
     is_Some (_workers self !! DInt id) ∨ is_Some (_players self !! DInt id) →
     set_id id self = Raise ValueError)
  ∧ (1 ≤ id → _id self ≠ Some id →
     _workers self !! DInt id = None → _players self !! DInt id = None →
     ∃ r, set_id id self = Ok r
          ∧ _id r = Some id
          ∧ (∀ old n, _id self = Some old →
                      _workers self !! DInt old = Some n →
                      _workers r !! DInt id = Some n
                      ∧ _workers r !! DInt old = None)
          ∧ (∀ old w, _id self = Some old →
                      _players self !! DInt old = Some w →
                      _players r !! DInt id = Some w
                      ∧ _players r !! DInt old = None)
          ∧ ((∀ old, _id self = Some old → _workers self !! DInt old = None) →
             ∀ n, _workers self !! DInfo (_info self) = Some n →
                  _workers r !! DInt id = Some n
                  ∧ _workers r !! DInfo (_info self) = None)
          ∧ ((∀ old, _id self = Some old → _players self !! DInt old = None) →
             ∀ w, _players self !! DInfo (_info self) = Some w →
                  _players r !! DInt id = Some w
                  ∧ _players r !! DInfo (_info self) = None)
          ∧ (_workers r = _workers self
             ∨ ∃ k n, _workers self !! k = Some n ∧ k ≠ DInt id
                      ∧ _workers r
                        = delete k (<[DInt id := n]> (_workers self)))
          ∧ (_players r = _players self
             ∨ ∃ k w, _players self !! k = Some w ∧ k ≠ DInt id
                      ∧ _players r
                        = delete k (<[DInt id := w]> (_players self)))
          ∧ sum_Z (_workers r) = sum_Z (_workers self)
          ∧ (sum_Q (_players r) == sum_Q (_players self))%Q
          ∧ _player_total r = _player_total self
          ∧ _num_workers r = _num_workers self).
Proof.
  unfold set_id. split; [| split; [| split]].
  - intros Hlt. by rewrite bool_decide_eq_true_2.
  - intros Hge Hid. rewrite bool_decide_eq_false_2 by lia.
    by rewrite bool_decide_eq_true_2.
  - intros Hge Hid Hcol. rewrite bool_decide_eq_false_2 by lia.
    rewrite bool_decide_eq_false_2 by congruence.
    destruct Hcol as [H | H].
    + by rewrite (bool_decide_eq_true_2 _ H).
    + rewrite (bool_decide_eq_true_2 _ H). by rewrite orb_true_r.
  - intros Hge Hid Hw Hp. rewrite bool_decide_eq_false_2 by lia.
    rewrite bool_decide_eq_false_2 by congruence.
    rewrite !bool_decide_eq_false_2 by (rewrite ?Hw, ?Hp; by intros [? ?]).
    cbn [orb].
    destruct (set_id_links (_workers self) (_id self) (_info self) id Hw)
      as [w1 [w' [Hw1 [Hw' [Hwa [Hwb Hwe]]]]]]; [congruence |].
    destruct (set_id_links (_players self) (_id self) (_info self) id Hp)
      as [p1 [p' [Hp1 [Hp' [Hpa [Hpb Hpe]]]]]]; [congruence |].
    rewrite Hw1, bind_Ok, Hp1, bind_Ok, Hw', bind_Ok, Hp', bind_Ok.
    eexists. split; [reflexivity |].
    cbn [set_players set_workers set_id_field _id _workers _players
         _player_total _num_workers].
    split; [done |]. split; [exact Hwa |]. split; [exact Hpa |].
    split; [exact Hwb |]. split; [exact Hpb |].
    split; [exact Hwe |]. split; [exact Hpe |].
    split; [| split; [| done]].
    + destruct Hwe as [-> | [k [v [Hk [Hne ->]]]]]; [done |].
      by apply sum_Z_moved.
    + destruct Hpe as [-> | [k [v [Hk [Hne ->]]]]]; [reflexivity |].
      by apply sum_Q_moved.
Qed.

(** ** Resolution, continued *)

(** X8. [resolve] is idempotent: resolving the result of a successful
    [resolve] against the same collection changes nothing. *)
Theorem resolve_idempotent (wards : Wards) (self r : Ward) :
  resolve wards self = Ok r → resolve wards r = Ok r.
Proof.
  intros Hr. apply resolve_unfold in Hr as [Hw Hp].
  unfold resolve, resolve_dict.
  rewrite !resolve_keys_nothing;
    try (intros i Hi; apply elem_of_dict_keys in Hi;
         first [ by apply (resolve_dict_remaining _ _ _ _ Hw)
               | by apply (resolve_dict_remaining _ _ _ _ Hp) ]).
  by destruct r.
Qed.

(** X9. When the ward has an id and the collection contains every
    WardInfo key of its two maps, a successful [resolve] leaves a ward for
    which [is_resolved] holds. *)
Theorem resolve_is_resolved (wards : Wards) (self r : Ward) :
  resolve wards self = Ok r →
  is_Some (_id self) →
  (∀ i, is_Some (_workers self !! DInfo i) ∨ is_Some (_players self !! DInfo i)
        → wards_contains wards i = true) →
  is_resolved r = true.
Proof.
  intros Hr [z Hid] Hall.
  pose proof Hr as Hr'. apply resolve_unfold in Hr' as [Hw Hp].
  assert (Hidr : _id r = Some z).
  { unfold resolve in Hr.
    destruct (resolve_dict wards (_workers self)); [| done].
    destruct (resolve_dict wards (_players self)); [| done].
    cbn in Hr. by simplify_eq. }
  unfold is_resolved. rewrite Hidr.
  apply andb_true_intro. split; apply forallb_forall; intros k Hk;
    apply list_elem_of_In, elem_of_dict_keys in Hk;
    (destruct k as [n | i]; [done |]); exfalso.
  - pose proof (resolve_dict_remaining _ _ _ _ Hw Hk) as Hc.
    rewrite (resolve_keys_uncontained _ _ _ _ i Hw Hc) in Hk.
    assert (wards_contains wards i = true) by (apply Hall; by left).
    congruence.
  - pose proof (resolve_dict_remaining _ _ _ _ Hp Hk) as Hc.
    rewrite (resolve_keys_uncontained _ _ _ _ i Hp Hc) in Hk.
    assert (wards_contains wards i = true) by (apply Hall; by right).
    congruence.
Qed.

Lemma resolve_key_moved {V} (wards : Wards) (d d' : gmap Dest V) (key : Dest) :
  resolve_key wards d key = Ok d' →
  d' = d ∨ ∃ k v new, d !! k = Some v ∧ d !! new = None
                     ∧ d' = delete k (<[new := v]> d).
Proof.
  intros Hstep. destruct key as [z | i]; cbn in Hstep; [left; by simplify_eq |].
  destruct (wards_contains wards i); [| left; by simplify_eq].
  destruct (wards_index wards i) as [idx |]; [| done]. cbn in Hstep.
  case_bool_decide as Hcol; [done |].
  destruct (d !! DInfo i) as [v |] eqn:Hv; [| done].
  simplify_eq. right. exists (DInfo i), v, (DInt idx).
  split; [done |]. split; [| done].
  destruct (d !! DInt idx) eqn:E; [| done]. exfalso. apply Hcol. eauto.
Qed.

Lemma resolve_keys_sum_Z (wards : Wards) (keys : list Dest) :
  ∀ d r, resolve_keys wards keys d = Ok r → sum_Z r = sum_Z d.
Proof.
  induction keys as [| key rest IH]; intros d r Hr; cbn in Hr.
  - by simplify_eq.
  - destruct (resolve_key wards d key) as [d' |] eqn:Hstep; [| done].
    cbn in Hr. rewrite (IH _ _ Hr).
    destruct (resolve_key_moved _ _ _ _ Hstep)
      as [-> | [k [v [new [Hk [Hnew ->]]]]]]; [done |].
    by apply sum_Z_moved.
Qed.

Lemma resolve_keys_sum_Q (wards : Wards) (keys : list Dest) :
  ∀ d r, resolve_keys wards keys d = Ok r → (sum_Q r == sum_Q d)%Q.
Proof.
  induction keys as [| key rest IH]; intros d r Hr; cbn in Hr.
  - simplify_eq. reflexivity.
  - destruct (resolve_key wards d key) as [d' |] eqn:Hstep; [| done].
    cbn in Hr. rewrite (IH _ _ Hr).
    destruct (resolve_key_moved _ _ _ _ Hstep)
      as [-> | [k [v [new [Hk [Hnew ->]]]]]]; [reflexivity |].
    by apply sum_Q_moved.
Qed.

(** X10. [resolve] only renames keys: the number of workers over all
    links, the player weight over all links, the id, the residual and the
    worker and player numbers of the ward are what they were. *)
Theorem resolve_conserves (wards : Wards) (self r : Ward) :
  resolve wards self = Ok r →
  sum_Z (_workers r) = sum_Z (_workers self)
  ∧ (sum_Q (_players r) == sum_Q (_players self))%Q
  ∧ _id r = _id self
  ∧ _player_total r = _player_total self
  ∧ _num_workers r = _num_workers self
  ∧ _num_players r = _num_players self.
Proof.
  intros Hr. pose proof Hr as Hr'. apply resolve_unfold in Hr' as [Hw Hp].
  split; [eauto using resolve_keys_sum_Z |].
  split; [eauto using resolve_keys_sum_Q |].
  unfold resolve in Hr.
  destruct (resolve_dict wards (_workers self)); [| done].
  destruct (resolve_dict wards (_players self)); [| done].
  cbn in Hr. by simplify_eq.
Qed.

(** ** Worker and player lists, continued *)

Lemma mapM_py_int_inv (keys : list (option Dest)) :
  ∀ zs, mapM py_int keys = Some zs →
        keys = map (fun z => Some (DInt z)) zs.
Proof.
  induction keys as [| k keys IH]; intros zs H; cbn in H.
  - by injection H as <-.
  - destruct (py_int k) as [z |] eqn:Hk; [| done]. cbn in H.
    destruct (mapM py_int keys) as [zs' |]; [| done]. cbn in H.
    injection H as <-. cbn. rewrite <- (IH zs' eq_refl).
    destruct k as [[z' | i] |]; cbn in Hk; by simplify_eq.
Qed.

(** What a successful [sorted_int_keys] returns: the integers of the
    keys, each as often as it occurs, in ascending order. *)
Lemma sorted_int_keys_inv (keys : list (option Dest)) (zs : list Z) :
  sorted_int_keys keys = Ok zs →
  map (fun z => Some (DInt z)) zs ≡ₚ keys ∧ Sorted Z.le zs.
Proof.
  unfold sorted_int_keys. intros H.
  destruct (mapM py_int keys) as [zs0 |] eqn:Hm; [| done]. simplify_eq.
  rewrite (mapM_py_int_inv keys zs0 Hm). split.
  - apply fmap_Permutation, merge_sort_Permutation.
  - apply Sorted_merge_sort. intros x y. lia.
Qed.

Lemma sorted_int_keys_fails (keys : list Dest) :
  ¬ Forall (fun k => is_int k = true) keys →
  is_ok (sorted_int_keys (map Some keys)) = false.
Proof.
  intros Hnot. destruct (sorted_int_keys (map Some keys)) as [zs |] eqn:H;
    [| done].
  exfalso. apply Hnot. apply sorted_int_keys_inv in H as [HP _].
  apply Forall_forall. intros k Hk.
  assert (Hin : Some k ∈ map Some keys).
  { apply list_elem_of_fmap. by exists k. }
  rewrite <- HP in Hin. apply list_elem_of_fmap in Hin as [z [E _]].
  by simplify_eq.
Qed.

Lemma Permutation_Some_inv {A} (a b : list A) :
  map Some a ≡ₚ map Some b → a ≡ₚ b.
Proof.
  intros H. destruct (Permutation_map_inv _ _ H) as [c [E HP]].
  assert (a = c) as ->; [| by symmetry].
  clear H HP. revert c E. induction a as [| x a IH]; intros [| y c] E;
    cbn in E; try done.
  injection E as -> E. f_equal. by apply IH.
Qed.

(** X11. [get_worker_lists], whenever it returns: the destinations are
    the keys of the workers map, all of them integers, each once and in
    ascending order, and the population at each position is the count
    stored for the destination at that position. *)
Theorem get_worker_lists_returns (self : Ward) (ks pops : list Z) :
  get_worker_lists self = Ok (ks, pops) →
  Sorted Z.le ks ∧ NoDup ks
  ∧ (∀ key, key ∈ dict_keys (_workers self) ↔ ∃ k, key = DInt k ∧ k ∈ ks)
  ∧ length pops = length ks
  ∧ (∀ n k, ks !! n = Some k →
            ∃ p, pops !! n = Some p ∧ _workers self !! DInt k = Some p).
Proof.
  unfold get_worker_lists. intros H.
  destruct (sorted_int_keys (map Some (dict_keys (_workers self))))
    as [zs |] eqn:Hs; [| done].
  cbn in H. simplify_eq.
  apply sorted_int_keys_inv in Hs as [HP HS].
  assert (HP' : map DInt ks ≡ₚ dict_keys (_workers self)).
  { apply Permutation_Some_inv. rewrite <- HP.
    by rewrite map_map. }
  assert (Hmem : ∀ k, k ∈ ks → is_Some (_workers self !! DInt k)).
  { intros k Hk. apply elem_of_dict_keys. rewrite <- HP'.
    apply list_elem_of_fmap. by exists k. }
  split; [done |]. split.
  { apply (NoDup_fmap_1 DInt). rewrite HP'. apply NoDup_dict_keys. }
  split.
  { intros key. rewrite <- HP', list_elem_of_fmap. naive_solver. }
  split; [apply length_map |].
  intros n k Hn.
  destruct (Hmem k) as [p Hp]; [by eapply list_elem_of_lookup_2 |].
  exists p. split; [| done].
  change (map ?f ?l) with (f <$> l).
  by rewrite list_lookup_fmap, Hn; cbn; rewrite Hp.
Qed.

(** X12. On a ward with a positive id whose play destinations are
    positive integers, the weight that [get_player_lists()] returns at
    each position is what [get_players] returns for the destination at
    that position, home ward and residual included. *)
Theorem get_player_lists_get_players (self : Ward) (i : Z)
    (ks : list Z) (ws : list Q) :
  _id self = Some i → 0 < i →
  (∀ key w, _players self !! key = Some w → ∃ z, key = DInt z ∧ 0 < z) →
  get_player_lists false self = Ok (ks, ws) →
  length ws = length ks
  ∧ ∀ n k, ks !! n = Some k →
           ∃ w, ws !! n = Some w ∧ get_players (ArgInt k) self = Ok w.
Proof.
  intros Hid Hi Hkeys. unfold get_player_lists. cbn [negb andb].
  rewrite Hid. change (DInt <$> Some i) with (Some (DInt i)).
  set (keys := if _auto_assign_players self
                  && negb (bool_decide
                             (Some (DInt i)
                              ∈ map Some (dict_keys (_players self))))
               then map Some (dict_keys (_players self)) ++ [Some (DInt i)]
               else map Some (dict_keys (_players self))).
  intros H. destruct (sorted_int_keys keys) as [zs |] eqn:Hs; [| done].
  cbn in H. injection H as -> <-.
  apply sorted_int_keys_inv in Hs as [HP _].
  split; [apply length_map |].
  intros n k Hn.
  assert (Hk : 0 < k).
  { assert (Hin : Some (DInt k) ∈ keys).
    { rewrite <- HP. apply list_elem_of_fmap. exists k.
      split; [done |]. by eapply list_elem_of_lookup_2. }
    assert (Hcases : Some (DInt k) ∈ map Some (dict_keys (_players self))
                     ∨ k = i).
    { subst keys. destruct (_ && _); [| by left].
      apply elem_of_app in Hin as [Hin | Hin]; [by left | right].
      apply list_elem_of_singleton in Hin. by simplify_eq. }
    destruct Hcases as [Hin' | ->]; [| done].
    apply list_elem_of_fmap in Hin' as [key [E Hkey]]. simplify_eq.
    apply elem_of_dict_keys in Hkey as [w Hw].
    destruct (Hkeys _ _ Hw) as [z [E Hz]]. by simplify_eq. }
  eexists. split.
  { change (map ?f ?l) with (f <$> l).
    rewrite list_lookup_fmap, Hn. reflexivity. }
  unfold get_players, _resolve_destination. cbn.
  rewrite (positive_integer_ok k false Hk). cbn. rewrite Hid. cbn.
  destruct (_auto_assign_players self); cbn [andb]; [| done].
  destruct (decide (k = i)) as [-> | Hne].
  - by rewrite !bool_decide_eq_true_2.
  - by rewrite !bool_decide_eq_false_2 by congruence.
Qed.

(** ** Serialisation, continued *)

(** X13. [to_data] serialises resolved links only: it returns exactly
    when every key of the workers and of the players map is an integer,
    whatever the other attributes of the ward. *)
Theorem to_data_returns_iff {InfoData : Type}
    (info_to_data : WardInfo → InfoData) (self : Ward) :
  is_ok (to_data info_to_data self)
  = forallb is_int (dict_keys (_workers self))
    && forallb is_int (dict_keys (_players self)).
Proof.
  assert (Hdec : ∀ keys : list Dest,
            is_ok (sorted_int_keys (map Some keys)) = forallb is_int keys).
  { intros keys. destruct (forallb is_int keys) eqn:Hall.
    - destruct (sorted_int_keys_ints keys) as [zs [-> _]]; [| done].
      apply Forall_forall. intros k Hk.
      rewrite forallb_forall in Hall. by apply Hall, list_elem_of_In.
    - apply sorted_int_keys_fails. intros HF.
      apply not_true_iff_false in Hall. apply Hall, forallb_forall.
      intros k Hk. rewrite Forall_forall in HF.
      by apply HF, list_elem_of_In. }
  unfold to_data, get_worker_lists, get_player_lists. cbn [negb andb].
  rewrite <- !Hdec.
  destruct (sorted_int_keys (map Some (dict_keys (_workers self)))); [| done].
  by destruct (sorted_int_keys (map Some (dict_keys (_players self)))).
Qed.

Lemma positive_integer_inv (n m : Z) (zero_allowed : bool) :
  _as_positive_integer n zero_allowed = Ok m →
  m = n ∧ 0 ≤ n ∧ (zero_allowed = false → 0 < n).
Proof.
  unfold _as_positive_integer. case_bool_decide; [done |].
  destruct zero_allowed; cbn.
  - rewrite andb_false_r. intros E. simplify_eq. split; [done |].
    split; [lia | done].
  - rewrite andb_true_r. case_bool_decide; [done |].
    intros E. simplify_eq. split; [done |]. split; lia.
Qed.

Lemma positive_float_inv (w v : Q) :
  _as_positive_float w = Ok v → v = w ∧ (0 <= w)%Q.
Proof.
  unfold _as_positive_float. destruct (Qltb w 0) eqn:E; [done |].
  intros H. simplify_eq. split; [done | by apply Qltb_ge].
Qed.

(** Every entry that [load_links] leaves has a positive integer key and a
    value that passed the check, if the entries it started from had. *)
Lemma load_links_post {V} (check : V → result V) (P : V → Prop) :
  (∀ v v', check v = Ok v' → P v') →
  ∀ pairs d r,
    load_links check pairs d = Ok r →
    (∀ k v, d !! k = Some v → (∃ z, k = DInt z ∧ 0 < z) ∧ P v) →
    ∀ k v, r !! k = Some v → (∃ z, k = DInt z ∧ 0 < z) ∧ P v.
Proof.
  intros Hcheck. induction pairs as [| [dst v0] rest IH]; intros d r H Hd.
  - cbn in H. by simplify_eq.
  - cbn in H.
    destruct (_as_positive_integer dst false) as [dst' |] eqn:Hdst; [| done].
    apply positive_integer_inv in Hdst as [-> [_ Hpos]].
    rewrite bind_Ok in H.
    destruct (check v0) as [v' |] eqn:Hv; [| done]. rewrite bind_Ok in H.
    apply (IH _ _ H). intros k v Hk.
    apply lookup_insert_Some in Hk as [[<- <-] | [_ Hk]]; [| by apply Hd].
    split; [exists dst; split; [done | by apply Hpos] | by eapply Hcheck].
Qed.

(** X14. Every ward that [from_data] builds passes [assert_sane] and is
    resolved: its destinations are positive integers, its worker counts,
    player weights and [num_players] are non-negative, [num_workers] is
    the sum of the worker counts, and its residual is 0 or at least
    [1e-10]. *)
Theorem from_data_returns {InfoData : Type}
    (info_from_data : InfoData → WardInfo) (info_empty : InfoData)
    (data : option Data) (w : Ward) :
  from_data info_from_data info_empty data = Ok (Some w) →
  assert_sane w = Ok ()
  ∧ is_resolved w = true
  ∧ (∀ key n, _workers w !! key = Some n →
              (∃ z, key = DInt z ∧ 0 < z) ∧ 0 ≤ n)
  ∧ (∀ key q, _players w !! key = Some q →
              (∃ z, key = DInt z ∧ 0 < z) ∧ (0 <= q)%Q)
  ∧ _num_workers w = sum_Z (_workers w)
  ∧ 0 ≤ _num_players w
  ∧ ((_player_total w == 0)%Q ∨ (tiny <= _player_total w)%Q).
Proof.
  unfold from_data. intros H.
  destruct data as [data |]; [| done].
  destruct (data_is_empty data); [done |].
  destruct (Ward_init _ _ true) as [w0 |] eqn:Hinit; [| done].
  rewrite bind_Ok in H.
  unfold set_num_players in H.
  destruct (_as_positive_integer (default 0 (d_num_players data)) true)
    as [np |] eqn:Hnp; [| done].
  apply positive_integer_inv in Hnp as [-> [Hnp _]].
  rewrite !bind_Ok in H.
  destruct (bool_decide (_id w0 = None) && WardInfo_is_null _).
  { destruct (zip _ _) as [| [d p] ?]; [done |].
    destruct (_as_positive_integer d false); [| done].
    by destruct (_as_positive_integer p true). }
  match type of H with
  | context [load_links _ _ (_workers ?b)] => set (base := b) in *
  end.
  assert (Hb_workers : _workers base = ∅).
  { subst base. unfold Ward_init in Hinit.
    destruct (match default None (d_id data) with
              | Some i => _ | None => _ end); [| done].
    cbn in Hinit. simplify_eq.
    by destruct (default PosNone (d_position data)). }
  assert (Hb_players : _players base = ∅).
  { subst base. unfold Ward_init in Hinit.
    destruct (match default None (d_id data) with
              | Some i => _ | None => _ end); [| done].
    cbn in Hinit. simplify_eq.
    by destruct (default PosNone (d_position data)). }
  assert (Hb_np : _num_players base = default 0 (d_num_players data))
    by done.
  destruct (load_links _ _ (_workers base)) as [ws |] eqn:Hws; [| done].
  rewrite bind_Ok in H.
  cbn [set_workers set_num_workers_field set_players set_player_total
       _id _info _workers _players _player_total _num_workers _num_players
       _pos _auto_assign_players] in H.
  destruct (bool_decide _ && negb _); [done |].
  destruct (load_links _ _ (_players base)) as [ps |] eqn:Hps; [| done].
  rewrite bind_Ok in H.
  destruct (if Qltb (Qabs (1 - sum_Q ps)) tiny then Ok 0%Q else _)
    as [total |] eqn:Htotal; [| done].
  rewrite bind_Ok in H.
  destruct (assert_sane _) as [[] |] eqn:Hsane in H; [| done].
  rewrite bind_Ok in H. injection H as <-.
  assert (Hwk : ∀ key n, ws !! key = Some n →
                         (∃ z, key = DInt z ∧ 0 < z) ∧ 0 ≤ n).
  { eapply (load_links_post (λ p, _as_positive_integer p true)
              (λ n, 0 ≤ n)); [| exact Hws |].
    - intros v v' Hv. apply positive_integer_inv in Hv as [-> [Hv _]]. done.
    - intros k v. rewrite Hb_workers, lookup_empty. done. }
  assert (Hpk : ∀ key q, ps !! key = Some q →
                         (∃ z, key = DInt z ∧ 0 < z) ∧ (0 <= q)%Q).
  { eapply (load_links_post _as_positive_float (λ q, (0 <= q)%Q));
      [| exact Hps |].
    - intros v v' Hv. apply positive_float_inv in Hv as [-> Hv]. done.
    - intros k v. rewrite Hb_players, lookup_empty. done. }
  split; [done |].
  split.
  { unfold is_resolved. unfold assert_sane in Hsane.
    destruct (_id _); [| done].
    cbn [set_workers set_num_workers_field set_players set_player_total
         _workers _players].
    apply andb_true_intro. split; apply forallb_forall; intros k Hk;
      apply list_elem_of_In, elem_of_dict_keys in Hk as [v Hv].
    - by destruct (Hwk _ _ Hv) as [[z' [-> _]] _].
    - by destruct (Hpk _ _ Hv) as [[z' [-> _]] _]. }
  split; [exact Hwk |]. split; [exact Hpk |].
  split; [done |]. split; [by rewrite <- Hb_np in Hnp |].
  cbn [set_player_total _player_total].
  destruct (Qltb (Qabs (1 - sum_Q ps)) tiny) eqn:Hsmall.
  - simplify_eq. left. reflexivity.
  - destruct (Qltb (1 - sum_Q ps) 0) eqn:Hneg; [done |]. simplify_eq.
    right. apply Qltb_ge in Hsmall, Hneg.
    destruct (Qabs_ge_cases _ _ Hsmall); [done |]. unfold tiny in *. lra.
Qed.

(** * Further properties of the stage dispatch *)

(** X15. With plugins that keep no state and return a list for every
    stage, [get_model_loop_functions] returns, for the stages setup, foi,
    infect and analyse in this order, the lists of the mover, the
    iterator, the mixer and the extractor; the stages initialise and
    finalise are left out. *)
Theorem get_model_loop_functions_stateless
    {MetaFunction Shared World : Type} (shared : Shared)
    (p : @Stages.Plugins MetaFunction Shared World)
    (fi fe fx fm : string → list MetaFunction) (w : World) :
  (∀ kw w', Stages.iterator p kw w' = (Ok (fi (Dispatch.kw_stage kw)), w')) →
  (∀ kw w', Stages.extractor p kw w' = (Ok (fe (Dispatch.kw_stage kw)), w')) →
  (∀ kw w', Stages.mixer p kw w' = (Ok (fx (Dispatch.kw_stage kw)), w')) →
  (∀ kw w', Stages.mover p kw w' = (Ok (fm (Dispatch.kw_stage kw)), w')) →
  Stages.get_model_loop_functions shared p w
  = (Ok (mjoin ((fun stage => fm stage ++ fi stage ++ fx stage ++ fe stage)
                <$> ["setup"; "foi"; "infect"; "analyse"])), w).
Proof.
  intros Hi He Hx Hm.
  assert (Hstage : ∀ stage w', stage ∈ Dispatch.stages →
            Stages.get_stage stage shared p w'
            = (Ok (fm stage ++ fi stage ++ fx stage ++ fe stage), w')).
  { intros stage w' Hin. unfold Stages.get_stage, Dispatch.get_functions.
    rewrite bool_decide_eq_true_2 by done. cbn [negb].
    rewrite Hm, Hi, Hx, He. cbn. by rewrite <- !app_assoc. }
  unfold Stages.get_model_loop_functions.
  rewrite !Hstage by (unfold Dispatch.stages; set_solver).
  cbn. by rewrite !app_nil_r, <- !app_assoc.
Qed.

(** X16. A custom iterator that does not accept [stage] is consulted for
    the infect stage only: for every other stage [get_functions] with the
    wrapped custom iterator is [get_functions] with the default iterator,
    and for the infect stage, or with a custom iterator that accepts
    [stage], it is [get_functions] with the custom function itself. *)
Theorem get_functions_iterate_custom {MetaFunction Shared World : Type}
    (stage : string) (shared : Shared)
    (iterate_default custom extractor mixer mover
     : @Dispatch.Plugin MetaFunction Shared World)
    (accepts_stage : bool) (w : World) :
  let wrapped := Stages.iterate_custom iterate_default
                   (Some (custom, accepts_stage)) in
  (stage ≠ "infect" → accepts_stage = false →
   Dispatch.get_functions stage shared wrapped extractor mixer mover w
   = Dispatch.get_functions stage shared iterate_default extractor mixer
       mover w)
  ∧ (stage = "infect" ∨ accepts_stage = true →
     Dispatch.get_functions stage shared wrapped extractor mixer mover w
     = Dispatch.get_functions stage shared custom extractor mixer mover w)
  ∧ Dispatch.get_functions stage shared
      (Stages.iterate_custom iterate_default None) extractor mixer mover w
    = Dispatch.get_functions stage shared iterate_default extractor mixer
        mover w.
Proof.
  cbn zeta. unfold Dispatch.get_functions, Stages.iterate_custom.
  cbn [Dispatch.kw_stage].
  split; [| split; [| done]].
  - intros Hne ->. rewrite (bool_decide_eq_false_2 (stage = "infect")) by done.
    done.
  - intros [-> | ->].
    + by rewrite (bool_decide_eq_true_2 ("infect" = "infect")).
    + by rewrite orb_true_r.
Qed.

(** X17. Which function [call_function_on_network] calls on a single
    network: the serial one, without [nthreads] among its arguments, when
    it is given and [nthreads] is below the switch; the parallel one, with
    [nthreads], otherwise. When the parallel function is wanted and is
    missing nothing is called at all, even if a serial function was
    given. *)
Theorem call_function_on_network_choice {World : Type}
    (n : Network) (func parallel : option (@Stages.NetworkFn World))
    (nthreads switch_to_parallel : Z) (w : World) :
  (∀ f, func = Some f → nthreads < switch_to_parallel →
        Stages.call_function_on_network (Seeding.ANetwork n) func parallel
          nthreads switch_to_parallel w
        = f n None w)
  ∧ (∀ g, parallel = Some g → func = None ∨ switch_to_parallel ≤ nthreads →
          Stages.call_function_on_network (Seeding.ANetwork n) func parallel
            nthreads switch_to_parallel w
          = g n (Some nthreads) w)
  ∧ (parallel = None → func = None ∨ switch_to_parallel ≤ nthreads →
     ∀ network,
       Stages.call_function_on_network network func parallel
         nthreads switch_to_parallel w
       = (Ok (), w)).
Proof.
  unfold Stages.call_function_on_network. split; [| split].
  - intros f -> Hlt. by rewrite bool_decide_eq_false_2 by lia.
  - intros g -> [-> | Hge]; [done |].
    destruct func; [| done]. by rewrite bool_decide_eq_true_2 by lia.
  - intros -> [-> | Hge] network; [done |].
    destruct func; [| done]. by rewrite bool_decide_eq_true_2 by lia.
Qed.

(** * Infections, Disease and Parameters *)

Lemma build_subs_lengths
    (init_work init_play : option Network → result (list (list Z)))
    (subnets : list Network) :
  ∀ works plays subs,
    Outbreak.build_subs init_work init_play subnets works plays = Ok subs →
    length subs.1 = (length works + length subnets)%nat
    ∧ length subs.2 = (length plays + length subnets)%nat.
Proof.
  induction subnets as [| subnet rest IH]; intros works plays subs H;
    cbn in H.
  - simplify_eq. cbn. lia.
  - destruct (init_work (Some subnet)) as [wk |]; [| done].
    destruct (init_play (Some subnet)) as [pl |]; [| done].
    cbn in H. destruct (IH _ _ _ H) as [H1 H2].
    rewrite length_app in H1, H2. cbn in *. lia.
Qed.

(** X18. [Infections.build] refuses to be given both a network and a set
    of networks, and cannot work with neither. For a single network it
    fills [work] and [play] only; for a [Networks] it also fills
    [sub_works] and [sub_plays] with one entry per subnet. It never
    attaches a [subinfs] attribute. *)
Theorem Infections_build_cases
    (init_work init_play : option Network → result (list (list Z)))
    (network : option Seeding.AnyNetwork) (networks : option Networks) :
  (is_Some network → is_Some networks →
   Outbreak.Infections_build init_work init_play network networks
   = Raise ValueError)
  ∧ (network = None → networks = None →
     Outbreak.Infections_build init_work init_play network networks
     = Raise AttributeError)
  ∧ (∀ inf,
       Outbreak.Infections_build init_work init_play network networks
       = Ok inf →
       Seeding.subinfs inf = None
       ∧ (∀ n, network = Some (Seeding.ANetwork n) →
               Seeding.sub_works inf = None ∧ Seeding.sub_plays inf = None)
       ∧ (∀ ns, network = Some (Seeding.ANetworks ns) ∨ networks = Some ns →
                ∃ works plays,
                  Seeding.sub_works inf = Some works
                  ∧ Seeding.sub_plays inf = Some plays
                  ∧ length works = length (subnets ns)
                  ∧ length plays = length (subnets ns))).
Proof.
  unfold Outbreak.Infections_build. split; [| split].
  - by intros [n ->] [ns ->].
  - by intros -> ->.
  - intros inf H.
    assert (Hnets : ∀ ns,
              (wk ← init_work (overall ns);
               pl ← init_play (overall ns);
               subs ← Outbreak.build_subs init_work init_play (subnets ns) [] [];
               Ok (Seeding.mkInfections wk pl (Some subs.1) (Some subs.2) None))
              = Ok inf →
              Seeding.subinfs inf = None
              ∧ ∃ works plays,
                  Seeding.sub_works inf = Some works
                  ∧ Seeding.sub_plays inf = Some plays
                  ∧ length works = length (subnets ns)
                  ∧ length plays = length (subnets ns)).
    { intros ns Hns.
      destruct (init_work (overall ns)) as [wk |]; [| done].
      destruct (init_play (overall ns)) as [pl |]; [| done].
      destruct (Outbreak.build_subs _ _ _ _ _) as [subs |] eqn:Hsubs; [| done].
      cbn in Hns. simplify_eq. cbn. split; [done |].
      destruct (build_subs_lengths _ _ _ _ _ _ Hsubs) as [H1 H2].
      exists subs.1, subs.2. cbn in H1, H2. by repeat split. }
    destruct network as [[n | ns] |], networks as [ns' |]; cbn in H;
      try done.
    + destruct (init_work (Some n)) as [wk |]; [| done].
      destruct (init_play (Some n)) as [pl |]; [| done].
      cbn in H. simplify_eq. cbn. split; [done |].
      split; [done |]. by intros ns [? | ?].
    + destruct (Hnets ns H) as [Hs Hex]. split; [done |].
      split; [done |]. intros ns0 [E | E]; by simplify_eq.
    + destruct (Hnets ns' H) as [Hs Hex]. split; [done |].
      split; [done |]. intros ns0 [E | E]; by simplify_eq.
Qed.

(** X19. On a [Networks] with the infections that [Infections.build]
    makes for it, [advance_additional] cannot apply an event: the first
    event of the day ends the call with an exception. *)
Theorem advance_additional_on_built_networks
    (init_work init_play : option Network → result (list (list Z)))
    (get_node_index : Network → Z → result Z)
    (get_index : list Demographic → Z → result Z)
    (get_style : string → result unit)
    (ns : Networks) (inf : Seeding.Infections) (day : Z)
    (seed : Seeding.Seed) (rest : list Seeding.Seed)
    (log : list Seeding.ConsoleMsg) :
  Outbreak.Infections_build init_work init_play None (Some ns) = Ok inf →
  Seeding.seed_day seed = day →
  is_ok (Seeding.advance_additional get_node_index get_index get_style
           (Seeding.ANetworks ns) day inf (seed :: rest) log).1 = false.
Proof.
  intros Hbuild Hday.
  apply advance_additional_networks_raises; [done |].
  unfold Outbreak.Infections_build in Hbuild. cbn in Hbuild.
  destruct (init_work (overall ns)) as [wk |]; [| done].
  destruct (init_play (overall ns)) as [pl |]; [| done].
  destruct (Outbreak.build_subs _ _ _ _ _) as [subs |]; [| done].
  cbn in Hbuild. by simplify_eq.
Qed.

(** X20. [Disease._validate] fails with [AssertionError] and nothing
    else, and passes exactly when the four parameter lists are set and
    have the same length, which is then [N_INF_CLASSES]. *)
Theorem validate_cases (d : Outbreak.Disease) :
  (Outbreak._validate d = Ok ()
   ∨ Outbreak._validate d = Raise AssertionError)
  ∧ (Outbreak._validate d = Ok ()
     ↔ ∃ b p t c,
         d = Outbreak.mkDisease (Some b) (Some p) (Some t) (Some c)
         ∧ Outbreak.N_INF_CLASSES d = Ok (length b)
         ∧ length p = length b ∧ length t = length b
         ∧ length c = length b).
Proof.
  unfold Outbreak._validate, Outbreak.N_INF_CLASSES, Outbreak.py_assert.
  destruct d as [[b |] [p |] [t |] [c |]]; cbn;
    repeat (case_bool_decide; cbn);
    first
      [ split; [by left |]; split; [| done];
        intros _; by eexists _, _, _, _
      | split; [by right |]; split; [done |];
        intros (b' & p' & t' & c' & E & _ & ? & ? & ?); by simplify_eq ].
Qed.

Section ReadFileProps.

Import Outbreak.

Variable float_of_string : string → option Q.

(** Two diseases with the same list lengths and the same
    [too_ill_to_move] and [contrib_foi]. *)
Local Abbreviation same_shape d d' :=
  (length <$> beta d' = length <$> beta d
   ∧ length <$> progress d' = length <$> progress d
   ∧ too_ill_to_move d' = too_ill_to_move d
   ∧ contrib_foi d' = contrib_foi d).

Local Abbreviation kept s s' :=
  (match disease_params s, disease_params s' with
   | Some d, Some d' => same_shape d d'
   | None, None => True
   | _, _ => False
   end).

Lemma py_setitem_length {A} (l l' : list A) (i : Z) (v : A) :
  py_setitem l i v = Ok l' → length l' = length l.
Proof.
  unfold py_setitem. destruct (py_slot l i) as [j |]; [| done].
  cbn. intros E. simplify_eq. apply length_insert.
Qed.

Lemma kept_refl (s : Parameters) : kept s s.
Proof. by destruct (disease_params s). Qed.

Lemma kept_trans (s1 s2 s3 : Parameters) : kept s1 s2 → kept s2 s3 → kept s1 s3.
Proof.
  destruct (disease_params s1), (disease_params s2), (disease_params s3);
    try done.
  intros (A1 & A2 & A3 & A4) (B1 & B2 & B3 & B4).
  repeat split; congruence.
Qed.

Lemma assign_beta_kept (i : Z) (v : Q) (s s' : Parameters) (r : result unit) :
  assign beta set_beta i v s = (r, s') → kept s s'.
Proof.
  unfold assign. destruct (disease_params s) as [d |] eqn:Hd.
  - destruct (beta d) as [b |] eqn:Hb; cbn.
    + destruct (py_setitem b i v) as [b' |] eqn:Hset; cbn;
        intros E; simplify_eq; cbn; rewrite ?Hd, ?Hb; cbn.
      * rewrite (py_setitem_length _ _ _ _ Hset). repeat split.
      * repeat split.
    + intros E. simplify_eq. rewrite Hd, ?Hb. repeat split.
  - intros E. simplify_eq. by rewrite Hd.
Qed.

Lemma assign_progress_kept (i : Z) (v : Q) (s s' : Parameters)
    (r : result unit) :
  assign progress set_progress i v s = (r, s') → kept s s'.
Proof.
  unfold assign. destruct (disease_params s) as [d |] eqn:Hd.
  - destruct (progress d) as [b |] eqn:Hb; cbn.
    + destruct (py_setitem b i v) as [b' |] eqn:Hset; cbn;
        intros E; simplify_eq; cbn; rewrite ?Hd, ?Hb; cbn.
      * rewrite (py_setitem_length _ _ _ _ Hset). repeat split.
      * repeat split.
    + intros E. simplify_eq. rewrite Hd, ?Hb. repeat split.
  - intros E. simplify_eq. by rewrite Hd.
Qed.

Lemma same_shape_validate (d d' : Disease) :
  same_shape d d' → _validate d' = _validate d.
Proof.
  intros (Hb & Hp & Ht & Hc). unfold _validate.
  destruct d as [b p t c], d' as [b' p' t' c']; cbn in *. subst t' c'.
  destruct b, b', p, p'; cbn in *; simplify_eq; try done.
  by rewrite Hb, Hp.
Qed.

(** X21. [read_file] reads the first line only: for every line number
    other than 0 it raises [ValueError] and leaves the parameters alone,
    whatever the file holds. Whatever the line number and the outcome, a
    disease that is set stays set, with lists of the same lengths and the
    same [too_ill_to_move] and [contrib_foi], so that it passes
    [_validate] afterwards exactly if it did before. *)
Theorem read_file_keeps (lines : list string) (line_number : Z)
    (self : Parameters) :
  (line_number ≠ 0 →
   read_file float_of_string lines line_number self
   = (Raise ValueError, self))
  ∧ (∀ r s' d,
       read_file float_of_string lines line_number self = (r, s') →
       disease_params self = Some d →
       ∃ d', disease_params s' = Some d'
             ∧ too_ill_to_move d' = too_ill_to_move d
             ∧ contrib_foi d' = contrib_foi d
             ∧ _validate d' = _validate d).
Proof.
  split.
  - intros Hne. unfold read_file. by rewrite bool_decide_eq_false_2.
  - intros r s' d Hread Hd.
    assert (Hkept : kept self s').
    { unfold read_file in Hread.
      case_bool_decide; [| simplify_eq; apply kept_refl].
      destruct (negb _); [simplify_eq; apply kept_refl |].
      destruct (read_floats _ _) as [vals |];
        [| simplify_eq; apply kept_refl].
      destruct vals as [| v0 [| v1 [| v2 [| v3 [| v4 [| ? ?]]]]]];
        try (simplify_eq; apply kept_refl).
      destruct (assign beta set_beta 2 v0 self) as [r1 s1] eqn:H1.
      apply assign_beta_kept in H1.
      destruct r1; [| simplify_eq; done].
      destruct (assign beta set_beta 3 v1 s1) as [r2 s2] eqn:H2.
      apply assign_beta_kept in H2.
      pose proof (kept_trans _ _ _ H1 H2) as H12.
      destruct r2; [| simplify_eq; done].
      destruct (assign progress set_progress 1 v2 s2) as [r3 s3] eqn:H3.
      apply assign_progress_kept in H3.
      pose proof (kept_trans _ _ _ H12 H3) as H13.
      destruct r3; [| simplify_eq; done].
      destruct (assign progress set_progress 2 v3 s3) as [r4 s4] eqn:H4.
      apply assign_progress_kept in H4.
      pose proof (kept_trans _ _ _ H13 H4) as H14.
      destruct r4; [| simplify_eq; done].
      apply assign_progress_kept in Hread.
      exact (kept_trans _ _ _ H14 Hread). }
    rewrite Hd in Hkept.
    destruct (disease_params s') as [d' |]; [| done].
    exists d'. split; [done |].
    destruct Hkept as (Hb & Hp & Ht & Hc).
    split; [done |]. split; [done |].
    by apply same_shape_validate.
Qed.

Lemma assign_ok (get : Disease → option (list Q))
    (set : Disease → option (list Q) → Disease) (i : Z) (v : Q)
    (s : Parameters) (d : Disease) (l : list Q) :
  disease_params s = Some d → get d = Some l →
  0 ≤ i < Z.of_nat (length l) →
  assign get set i v s
  = (Ok (), mkParameters (Some (set d (Some (<[Z.to_nat i := v]> l))))).
Proof.
  intros Hd Hl Hi. unfold assign, py_setitem_opt, py_setitem, py_slot.
  rewrite Hd, Hl.
  rewrite (bool_decide_eq_false_2 (i < 0)) by lia.
  by rewrite bool_decide_eq_true_2 by lia.
Qed.

(** X22. [read_file] with line number 0, on a file whose first line is
    five comma-separated numbers and with a disease of at least four
    stages: [beta[2]], [beta[3]], [progress[1]], [progress[2]] and
    [progress[3]] take the five numbers in this order, and nothing else
    changes. *)
Theorem read_file_first_line (lines : list string) (self : Parameters)
    (d : Disease) (b p : list Q) (w0 w1 w2 w3 w4 : string)
    (v0 v1 v2 v3 v4 : Q) :
  split_on comma (hd EmptyString lines) = [w0; w1; w2; w3; w4] →
  float_of_string w0 = Some v0 → float_of_string w1 = Some v1 →
  float_of_string w2 = Some v2 → float_of_string w3 = Some v3 →
  float_of_string w4 = Some v4 →
  disease_params self = Some d →
  beta d = Some b → progress d = Some p →
  (4 ≤ length b)%nat → (4 ≤ length p)%nat →
  read_file float_of_string lines 0 self
  = (Ok (),
     mkParameters
       (Some (mkDisease
                (Some (<[3%nat := v1]> (<[2%nat := v0]> b)))
                (Some (<[3%nat := v4]> (<[2%nat := v3]> (<[1%nat := v2]> p))))
                (too_ill_to_move d) (contrib_foi d)))).
Proof.
  intros Hsplit H0 H1 H2 H3 H4 Hd Hb Hp Hlb Hlp.
  unfold read_file. rewrite bool_decide_eq_true_2 by done.
  rewrite Hsplit. cbn [length negb]. rewrite bool_decide_eq_true_2 by done.
  cbn [negb read_floats]. rewrite H0, H1, H2, H3, H4. cbn [mbind result_bind].
  rewrite (assign_ok beta set_beta 2 v0 self d b Hd Hb) by lia.
  erewrite (assign_ok beta set_beta 3 v1);
    [| reflexivity | reflexivity | rewrite length_insert; lia].
  erewrite (assign_ok progress set_progress 1 v2);
    [| reflexivity | exact Hp | lia].
  erewrite (assign_ok progress set_progress 2 v3);
    [| reflexivity | reflexivity | rewrite length_insert; lia].
  erewrite (assign_ok progress set_progress 3 v4);
    [| reflexivity | reflexivity | rewrite !length_insert; lia].
  reflexivity.
Qed.

End ReadFileProps.

(** ** The seeding loop on a single network *)

Lemma py_slot_inv {A} (l : list A) (i : Z) (j : nat) :
  py_slot l i = Ok j → (j < length l)%nat.
Proof.
  unfold py_slot. repeat case_bool_decide; intros; simplify_eq; lia.
Qed.

Lemma py_index_inv {A} (l : list A) (i : Z) (a : A) :
  py_index l i = Ok a → ∃ j, py_slot l i = Ok j ∧ l !! j = Some a.
Proof.
  unfold py_index. destruct (py_slot l i) as [j |]; [| done].
  rewrite bind_Ok. destruct (l !! j) eqn:E; [| done].
  intros; simplify_eq. by exists j.
Qed.

Lemma py_setitem_inv {A} (l l' : list A) (i : Z) (a : A) :
  py_setitem l i a = Ok l' → ∃ j, py_slot l i = Ok j ∧ l' = <[j := a]> l.
Proof.
  unfold py_setitem. destruct (py_slot l i) as [j |]; [| done].
  rewrite bind_Ok. intros; simplify_eq. by exists j.
Qed.

Lemma foldr_Qplus_insert (l : list Q) (j : nat) (a b : Q) :
  l !! j = Some a →
  (foldr Qplus 0 (<[j := b]> l) == foldr Qplus 0 l - a + b)%Q.
Proof.
  revert j. induction l as [| x l IH]; intros [| j] H; try done.
  - cbn in *. simplify_eq. ring.
  - specialize (IH j H).
    change (<[S j := b]> (x :: l)) with (x :: <[j := b]> l).
    cbn [foldr]. rewrite IH. ring.
Qed.

Lemma foldr_Zadd_insert (l : list Z) (j : nat) (a b : Z) :
  l !! j = Some a →
  foldr Z.add 0 (<[j := b]> l) = foldr Z.add 0 l - a + b.
Proof.
  revert j. induction l as [| x l IH]; intros [| j] H; try done.
  - cbn in *. simplify_eq. lia.
  - specialize (IH j H).
    change (<[S j := b]> (x :: l)) with (x :: <[j := b]> l).
    cbn [foldr]. lia.
Qed.

Lemma Forall_Qle_insert (l : list Q) (j : nat) (b : Q) :
  (0 <= b)%Q → Forall (Qle 0) l → Forall (Qle 0) (<[j := b]> l).
Proof. intros Hb Hl. by apply Forall_insert. Qed.

Section AdvanceLoop.

Import Seeding.

Variable get_node_index : Network → Z → result Z.
Variable get_index : list Demographic → Z → result Z.
Variable get_style : string → result unit.

Local Abbreviation advance :=
  (advance_additional get_node_index get_index get_style).

Local Ltac run_event :=
  cbv [mbind M_bind mret M_ret select_network current get put lift
         Console.recorded Console.print Console.rule Console.warning
         Console.error try_except seed_try write_play_suscept read_play
         write_play st_local st_network st_infections st_console fst snd].

(** The state reached is of the expected shape. *)
Local Ltac reached :=
  let E := fresh in
  intros E; injection E as <- <-; eexists _, _, _;
  split; [reflexivity |]; cbn [nodes play_suscept work play];
  rewrite ?length_insert; repeat split; done.

(** The same after the handler of the [try] block has run. *)
Local Ltac handled :=
  destruct (get_style "error") as [[] |]; reached.

(** Play susceptibles of the network plus stage-0 play infections. *)
Local Abbreviation at_play net inf :=
  (Qplus (foldr Qplus 0%Q (play_suscept (nodes net)))
         (inject_Z (foldr Z.add 0%Z (hd [] (play inf))))).

Local Abbreviation single_step net inf r s' :=
  (∃ net' inf' log',
     s' = mkState (ANetwork net') inf' RefArg log'
     ∧ length (play_suscept (nodes net')) = length (play_suscept (nodes net))
     ∧ (Forall (Qle 0) (play_suscept (nodes net)) →
        Forall (Qle 0) (play_suscept (nodes net')))
     ∧ work inf' = work inf
     ∧ (r = Ok () → Qeq (at_play net' inf') (at_play net inf))).

Lemma seed_event_single (day : Z) (seed : Seed) (net : Network)
    (inf : Infections) (log : list ConsoleMsg) (r : result unit)
    (s' : State) :
  seed_event get_node_index get_index get_style day seed
    (mkState (ANetwork net) inf RefArg log) = (r, s') →
  single_step net inf r s'.
Proof.
  unfold seed_event. case_bool_decide; [| reached].
  run_event.
  destruct (get_node_index net (seed_ward seed)) as [ward |] eqn:Hw;
    [| handled].
  destruct (py_index (play_suscept (nodes net)) ward) as [suscept |] eqn:Hs;
    [| handled].
  destruct (Qltb suscept (inject_Z (seed_num seed))) eqn:Hlt.
  { destruct (get_style "warning") as [[] |]; [reached | handled]. }
  apply Qltb_ge in Hlt.
  destruct (py_setitem (play_suscept (nodes net)) ward _) as [ps |] eqn:Hps;
    [| handled].
  apply py_index_inv in Hs as (j & Hj & Hsj).
  apply py_setitem_inv in Hps as (j' & Hj' & ->).
  assert (j' = j) as -> by congruence.
  run_event.
  assert (Hnn : Forall (Qle 0) (play_suscept (nodes net)) →
                Forall (Qle 0)
                  (<[j := (suscept - inject_Z (seed_num seed))%Q]>
                     (play_suscept (nodes net)))).
  { apply Forall_Qle_insert. lra. }
  destruct (py_index (play inf) 0) as [row |] eqn:Hrow; [| handled].
  destruct (py_index row ward) as [v |] eqn:Hv; [| handled].
  destruct (py_setitem row ward _) as [row' |] eqn:Hrow'; [| handled].
  destruct (py_setitem (play inf) 0 row') as [p' |] eqn:Hp'; [| handled].
  intros E. injection E as <- <-. eexists _, _, _.
  split; [reflexivity |]. cbn [nodes play_suscept work play].
  rewrite length_insert. repeat split; [done |]. intros _.
  apply py_index_inv in Hrow as (j0 & Hj0 & Hrow).
  apply py_index_inv in Hv as (k & Hk & Hv).
  apply py_setitem_inv in Hrow' as (k' & Hk' & ->).
  apply py_setitem_inv in Hp' as (j0' & Hj0' & ->).
  assert (k' = k) as -> by congruence.
  assert (j0' = j0) as -> by congruence.
  assert (j0 = 0%nat) as ->.
  { unfold py_slot in Hj0.
    rewrite (bool_decide_eq_false_2 (0 < 0)) in Hj0 by lia.
    case_bool_decide; by simplify_eq. }
  destruct (play inf) as [| row0 p]; [done |].
  cbn in Hrow. injection Hrow as ->.
  change (hd [] (<[0%nat := <[k := v + seed_num seed]> row]> (row :: p)))
    with (<[k := v + seed_num seed]> row).
  rewrite (foldr_Qplus_insert _ _ _ _ Hsj), (foldr_Zadd_insert _ _ _ _ Hv).
  cbn [hd].
  replace (foldr Z.add 0 row - v + (v + seed_num seed))
    with (foldr Z.add 0 row + seed_num seed) by lia.
  rewrite inject_Z_plus. ring.
Qed.

Lemma seed_loop_single (day : Z) (seeds : list Seed) :
  ∀ (net : Network) (inf : Infections) (log : list ConsoleMsg)
    (r : result unit) (s' : State),
    seed_loop get_node_index get_index get_style day seeds
      (mkState (ANetwork net) inf RefArg log) = (r, s') →
    single_step net inf r s'.
Proof.
  induction seeds as [| seed rest IH]; intros net inf log r s'.
  - cbn [seed_loop]. intros E. injection E as <- <-.
    eexists _, _, _. repeat split; done.
  - cbn [seed_loop]. cbv [mbind M_bind].
    destruct (seed_event _ _ _ day seed _) as [r1 s1] eqn:H1.
    apply seed_event_single in H1
      as (net1 & inf1 & log1 & -> & Hlen & Hnn & Hwork & Hsum).
    destruct r1 as [[] | e].
    + intros H2.
      apply IH in H2
        as (net2 & inf2 & log2 & -> & Hlen2 & Hnn2 & Hwork2 & Hsum2).
      eexists _, _, _. split; [reflexivity |].
      split; [congruence |]. split; [tauto |]. split; [congruence |].
      intros Hr. rewrite (Hsum2 Hr). by apply Hsum.
    + intros E. injection E as <- <-.
      eexists _, _, _. split; [reflexivity |]. repeat split; done.
Qed.

(** X24. On a single [Network] whose play susceptibles are all
    non-negative, [advance_additional] never makes one negative, whatever
    the seeds ask for and whether or not the call ends with an exception:
    the network afterwards has as many nodes, all with non-negative play
    susceptibles, and the work infections are as they were. *)
Theorem advance_additional_never_negative (net : Network) (day : Z)
    (inf : Infections) (seeds : list Seed) (log : list ConsoleMsg) :
  Forall (Qle 0) (play_suscept (nodes net)) →
  ∃ net',
    st_network
      (advance_additional get_node_index get_index get_style (ANetwork net)
         day inf seeds log).2 = ANetwork net'
    ∧ length (play_suscept (nodes net')) = length (play_suscept (nodes net))
    ∧ Forall (Qle 0) (play_suscept (nodes net'))
    ∧ work (st_infections
              (advance_additional get_node_index get_index get_style
                 (ANetwork net) day inf seeds log).2) = work inf.
Proof.
  intros Hnn. unfold advance_additional.
  destruct (seed_loop _ _ _ day seeds _) as [r s'] eqn:H.
  apply seed_loop_single in H
    as (net' & inf' & log' & -> & Hlen & Hnn' & Hwork & _).
  exists net'. repeat split; auto.
Qed.

(** X25. A call of [advance_additional] on a single [Network] that ends
    without an exception moves individuals and neither creates nor loses
    any: the play susceptibles of all nodes plus the stage-0 play
    infections of all nodes add up to what they were before. *)
Theorem advance_additional_conserves (net : Network) (day : Z)
    (inf : Infections) (seeds : list Seed) (log : list ConsoleMsg)
    (s' : State) :
  advance_additional get_node_index get_index get_style (ANetwork net) day
    inf seeds log = (Ok (), s') →
  ∃ net',
    st_network s' = ANetwork net'
    ∧ (foldr Qplus 0 (play_suscept (nodes net'))
       + inject_Z (foldr Z.add 0%Z (hd [] (play (st_infections s'))))
       == foldr Qplus 0 (play_suscept (nodes net))
          + inject_Z (foldr Z.add 0%Z (hd [] (play inf))))%Q.
Proof.
  unfold advance_additional. intros H.
  apply seed_loop_single in H
    as (net' & inf' & log' & -> & _ & _ & _ & Hsum).
  exists net'. split; [done |]. by apply Hsum.
Qed.


End AdvanceLoop.

(** ** Custom mixers on every path *)

Section MixCustomProps.

Context {MetaFunction : Type} `{EqDecision MetaFunction} {Kw : Type}.

Variable merge_core : @Mixer.MixerFn MetaFunction Kw.

Implicit Types (core custom : option (list MetaFunction)).

(** The merge of the two lists at the end of [mix_custom]. *)
Local Abbreviation merged core custom :=
  (match core with
   | None | Some [] => Ok (default [] custom)
   | Some core_funcs =>
       match custom with
       | None | Some [] => Ok core_funcs
       | Some custom_funcs =>
           Ok (Mixer.prepend_core core_funcs (length core_funcs)
                 custom_funcs)
       end
   end).

Lemma merged_spec core custom (funcs : list MetaFunction) :
  merged core custom = Ok funcs →
  (∀ f, f ∈ funcs ↔ f ∈ default [] core ∨ f ∈ default [] custom)
  ∧ default [] custom `suffix_of` funcs
  ∧ (NoDup (default [] core) → NoDup (default [] custom) → NoDup funcs).
Proof.
  assert (Hleft : ∀ l : list MetaFunction,
            (∀ f, f ∈ l ↔ f ∈ l ∨ f ∈ @nil MetaFunction)
            ∧ [] `suffix_of` l).
  { intros l. split; [| apply suffix_nil].
    intros f. rewrite elem_of_nil. tauto. }
  assert (Hright : ∀ l : list MetaFunction,
            (∀ f, f ∈ l ↔ f ∈ @nil MetaFunction ∨ f ∈ l)
            ∧ l `suffix_of` l).
  { intros l. split; [| done].
    intros f. rewrite elem_of_nil. tauto. }
  assert (Hinj : ∀ a b : list MetaFunction, @Ok _ a = Ok b → a = b)
    by (by intros a b [= ->]).
  destruct core as [[| c cs] |]; cbn [default].
  1, 3: intros E; injection E as <-;
        destruct (Hright (default [] custom)) as [? ?];
        split; [done |]; split; [done |]; done.
  destruct custom as [[| x xs] |]; cbn [default].
  1, 3: intros E; injection E as <-;
        destruct (Hleft (c :: cs)) as [? ?];
        split; [done |]; split; [done |]; done.
  intros E%Hinj. subst funcs. unfold id.
  rewrite prepend_core_foldr, firstn_all by done.
  destruct (foldr_prepend_missing (c :: cs) (x :: xs))
    as (prefix & -> & _ & Hmem & Hfil).
  split; [| split].
  - intros f. rewrite elem_of_app, Hmem.
    destruct (decide (f ∈ x :: xs)); tauto.
  - by exists prefix.
  - intros Hcore Hcustom. apply NoDup_app. split; [| split; [| done]].
    + rewrite (Hfil Hcore). by apply NoDup_filter.
    + intros f Hf. by apply Hmem in Hf as [_ ?].
Qed.

(** X26. [mix_custom] in setup mode with a custom function that has no
    [setup] argument: the custom function plays no part. An exception of
    [merge_core] (called with the [setup] key) is passed on, and otherwise
    the result is the core list, or the empty list when [merge_core]
    returns [None]. *)
Theorem mix_custom_setup_without_argument
    (custom_function : @Mixer.MixerFn MetaFunction Kw) (kwargs : Kw) :
  (∀ e, merge_core true kwargs = Raise e →
        Mixer.mix_custom merge_core custom_function false true kwargs
        = Raise e)
  ∧ (∀ core, merge_core true kwargs = Ok core →
        Mixer.mix_custom merge_core custom_function false true kwargs
        = Ok (default [] core)).
Proof.
  unfold Mixer.mix_custom. split.
  - by intros e ->.
  - intros core ->. cbn [mbind result_bind fst snd].
    by destruct core as [[| c cs] |].
Qed.

(** X27. Whenever [mix_custom] returns a list, [merge_core] returned and
    so did the custom function if it was called (it is not called in
    setup mode when it has no [setup] argument), both with the same
    [setup] flag. The list holds exactly the core and the custom
    functions, it ends with the custom list, and it has no repetition if
    neither list has one. *)
Theorem mix_custom_returns
    (custom_function : @Mixer.MixerFn MetaFunction Kw)
    (needs_setup setup : bool) (kwargs : Kw) (funcs : list MetaFunction) :
  Mixer.mix_custom merge_core custom_function needs_setup setup kwargs
  = Ok funcs →
  ∃ core custom,
    merge_core setup kwargs = Ok core
    ∧ (if setup && negb needs_setup then custom = None
       else custom_function setup kwargs = Ok custom)
    ∧ (∀ f, f ∈ funcs ↔ f ∈ default [] core ∨ f ∈ default [] custom)
    ∧ default [] custom `suffix_of` funcs
    ∧ (NoDup (default [] core) → NoDup (default [] custom) → NoDup funcs).
Proof.
  unfold Mixer.mix_custom.
  destruct setup.
  - destruct (merge_core true kwargs) as [core |]; [| done].
    destruct needs_setup; cbn [andb negb].
    + destruct (custom_function true kwargs) as [custom |]; [| done].
      cbn [mbind result_bind fst snd]. intros Hm.
      exists core, custom. split; [done |]. split; [done |].
      by apply merged_spec.
    + cbn [mbind result_bind fst snd]. intros Hm.
      exists core, None. split; [done |]. split; [done |].
      by apply merged_spec.
  - destruct (merge_core false kwargs) as [core |]; [| done].
    destruct (custom_function false kwargs) as [custom |]; [| done].
    cbn [mbind result_bind fst snd andb]. intros Hm.
    exists core, custom. split; [done |]. split; [done |].
    by apply merged_spec.
Qed.

End MixCustomProps.

(** ** Instances of the further properties *)

(** Instance of X1: two more commuters from ward 1 to ward 2. *)
Lemma add_workers_effect_witness :
  ∃ r, add_workers 2 (ArgInt 2) Inputs.commuters = Ok r
       ∧ get_workers (ArgInt 2) r = Ok 7
       ∧ _num_workers r = 7.
Proof.
  assert (H0 : 0 ≤ 2) by lia.
  destruct (add_workers_effect Inputs.commuters 2 (ArgInt 2) 5 H0 eq_refl)
    as (r & Hr & Hg & Hn & _).
  exists r. split; [exact Hr |]. split; [exact Hg | exact Hn].
Defined.

(** Instance of X2: all five commuters to ward 2 are taken away. *)
Lemma subtract_workers_returns_witness :
  ∃ r, subtract_workers 5 (ArgInt 2) Inputs.commuters = Ok r
       ∧ _workers r = delete (DInt 2) (_workers Inputs.commuters)
       ∧ sum_Z (_workers r) = _num_workers r.
Proof.
  assert (E : ∃ r, subtract_workers 5 (ArgInt 2) Inputs.commuters = Ok r)
    by (eexists; vm_compute; reflexivity).
  destruct E as [r E]. exists r. split; [exact E |].
  destruct (subtract_workers_returns Inputs.commuters r 5 (ArgInt 2) E)
    as (d & Hd & Hw & _ & Hsum).
  assert (d = DInt 2) as -> by (vm_compute in Hd; congruence).
  split; [exact Hw |]. apply Hsum. vm_compute. reflexivity.
Defined.

(** Instance of X3: three workers to ward 3 and back. *)
Lemma add_then_subtract_workers_witness :
  add_workers 3 (ArgInt 3) Inputs.commuters ≫= subtract_workers 3 (ArgInt 3)
  = Ok Inputs.commuters.
Proof.
  apply (add_then_subtract_workers Inputs.commuters 3 (ArgInt 3) (DInt 3));
    [lia | reflexivity | reflexivity].
Defined.

(** Instance of X4: five workers cannot be lowered to three. *)
Lemma set_num_workers_cases_witness :
  set_num_workers 3 Inputs.commuters = Raise ValueError.
Proof.
  apply (proj1 (set_num_workers_cases Inputs.commuters 3)). reflexivity.
Defined.


(** Instance of X6: the whole play weight to ward 2 is taken back. *)
Lemma subtract_player_weight_whole_witness :
  ∃ r, subtract_player_weight (1 # 2) (ArgInt 2) Inputs.half_away = Ok r
       ∧ _players r = delete (DInt 2) (_players Inputs.half_away).
Proof.
  assert (Ht : (tiny <= 1 # 2)%Q) by (unfold Qle, tiny; cbn; lia).
  assert (Hc : (1 # 2 <= 1 # 2)%Q) by (unfold Qle; cbn; lia).
  assert (Hs : (sum_Q (_players Inputs.half_away)
                + _player_total Inputs.half_away == 1)%Q)
    by (vm_compute; reflexivity).
  destruct (subtract_player_weight_whole Inputs.half_away (1 # 2) (ArgInt 2)
              (DInt 2) (1 # 2) Ht eq_refl eq_refl Hc Hs)
    as (r & Hr & Hp & _).
  exists r. split; [exact Hr | exact Hp].
Defined.

(** Instance of X7: a ward known by name becomes ward 5, and its links
    to itself follow in both maps. *)
Lemma set_id_cases_witness :
  ∃ r, set_id 5 Samples2.by_name = Ok r ∧ _id r = Some 5
       ∧ _workers r !! DInt 5 = Some 3
       ∧ _workers r !! DInfo Samples2.home = None
       ∧ _players r !! DInt 5 = Some (1 # 4)
       ∧ _players r !! DInfo Samples2.home = None.
Proof.
  assert (H1 : 1 ≤ 5) by lia.
  assert (Hne : _id Samples2.by_name ≠ Some 5) by discriminate.
  assert (Hold : ∀ (V : Type) (m : gmap Dest V) (old : Z),
            _id Samples2.by_name = Some old → m !! DInt old = None)
    by discriminate.
  destruct (proj2 (proj2 (proj2 (set_id_cases Samples2.by_name 5)))
              H1 Hne eq_refl eq_refl)
    as (r & Hr & Hid & _ & _ & Hw & Hp & _).
  exists r. split; [exact Hr |]. split; [exact Hid |].
  destruct (Hw (Hold _ _) 3 eq_refl) as [Hw5 Hwi].
  destruct (Hp (Hold _ _) (1 # 4) eq_refl) as [Hp5 Hpi].
  split; [exact Hw5 |]. split; [exact Hwi |]. split; [exact Hp5 | exact Hpi].
Defined.

(** Instance of X8: the ward that commutes to a ward known by name. *)
Lemma resolve_idempotent_witness :
  ∃ r, resolve Inputs.two_wards Inputs.unresolved = Ok r
       ∧ resolve Inputs.two_wards r = Ok r.
Proof.
  assert (E : ∃ r, resolve Inputs.two_wards Inputs.unresolved = Ok r)
    by (eexists; vm_compute; reflexivity).
  destruct E as [r E]. exists r. split; [exact E |].
  exact (resolve_idempotent Inputs.two_wards Inputs.unresolved r E).
Defined.

(** Instance of X9: the same ward is resolved afterwards. *)
Lemma resolve_is_resolved_witness :
  ∃ r, resolve Inputs.two_wards Inputs.unresolved = Ok r
       ∧ is_resolved r = true.
Proof.
  assert (E : ∃ r, resolve Inputs.two_wards Inputs.unresolved = Ok r)
    by (eexists; vm_compute; reflexivity).
  destruct E as [r E]. exists r. split; [exact E |].
  apply (resolve_is_resolved Inputs.two_wards Inputs.unresolved r E).
  - by eexists.
  - intros i [[n Hn] | [w Hw]].
    + cbn in Hn. apply lookup_singleton_Some in Hn as [Hi _].
      injection Hi as <-. reflexivity.
    + cbn in Hw. by rewrite lookup_empty in Hw.
Defined.

(** Instance of X10: its three commuters are still three. *)
Lemma resolve_conserves_witness :
  ∃ r, resolve Inputs.two_wards Inputs.unresolved = Ok r
       ∧ sum_Z (_workers r) = 3.
Proof.
  assert (E : ∃ r, resolve Inputs.two_wards Inputs.unresolved = Ok r)
    by (eexists; vm_compute; reflexivity).
  destruct E as [r E]. exists r. split; [exact E |].
  rewrite (proj1 (resolve_conserves Inputs.two_wards Inputs.unresolved r E)).
  vm_compute. reflexivity.
Defined.

(** Instance of X11: the worker lists of the commuters. *)
Lemma get_worker_lists_returns_witness :
  get_worker_lists Inputs.commuters = Ok ([2], [5])
  ∧ Sorted Z.le [2] ∧ NoDup [2].
Proof.
  assert (E : get_worker_lists Inputs.commuters = Ok ([2], [5]))
    by (vm_compute; reflexivity).
  split; [exact E |].
  destruct (get_worker_lists_returns Inputs.commuters [2] [5] E)
    as (Hs & Hn & _).
  split; [exact Hs | exact Hn].
Defined.

(** Instance of X12: the player lists of ward 1, half of whose players
    play in ward 2. *)
Lemma get_player_lists_get_players_witness :
  ∃ ks ws, get_player_lists false Inputs.half_away = Ok (ks, ws)
           ∧ length ws = length ks.
Proof.
  assert (E : ∃ ks ws, get_player_lists false Inputs.half_away = Ok (ks, ws))
    by (eexists _, _; vm_compute; reflexivity).
  destruct E as (ks & ws & E). exists ks, ws. split; [exact E |].
  assert (H1 : 0 < 1) by lia.
  apply (get_player_lists_get_players Inputs.half_away 1 ks ws eq_refl H1);
    [| exact E].
  intros key w Hk. cbn in Hk.
  apply lookup_singleton_Some in Hk as [<- _].
  exists 2. split; [reflexivity | lia].
Defined.

(** Instance of X14: the commuters, written out and read back. *)
Lemma from_data_returns_witness :
  ∃ data w,
    to_data (fun info => info) Inputs.commuters = Ok data
    ∧ from_data (fun info => info) WardInfo_null (Some data) = Ok (Some w)
    ∧ assert_sane w = Ok () ∧ is_resolved w = true.
Proof.
  assert (E : ∃ data w,
            to_data (fun info => info) Inputs.commuters = Ok data
            ∧ from_data (fun info : WardInfo => info) WardInfo_null
                (Some data) = Ok (Some w))
    by (eexists _, _; split; vm_compute; reflexivity).
  destruct E as (data & w & Ed & Ew).
  exists data, w. split; [exact Ed |]. split; [exact Ew |].
  destruct (from_data_returns (fun info => info) WardInfo_null (Some data) w
              Ew) as (Hsane & Hres & _).
  split; [exact Hsane | exact Hres].
Defined.

(** Instance of X15: plugins that name their functions after the stage. *)
Lemma get_model_loop_functions_stateless_witness :
  Stages.get_model_loop_functions () Samples2.plugins ()
  = (Ok ["move_setup"; "iterate_setup"; "mix_setup"; "extract_setup";
         "move_foi"; "iterate_foi"; "mix_foi"; "extract_foi";
         "move_infect"; "iterate_infect"; "mix_infect"; "extract_infect";
         "move_analyse"; "iterate_analyse"; "mix_analyse";
         "extract_analyse"], ()).
Proof.
  etrans.
  - apply (get_model_loop_functions_stateless () Samples2.plugins
             (fun stage => ["iterate_" +:+ stage])
             (fun stage => ["extract_" +:+ stage])
             (fun stage => ["mix_" +:+ stage])
             (fun stage => ["move_" +:+ stage]) ());
      intros kw w'; reflexivity.
  - reflexivity.
Defined.

(** Instance of X16: a custom iterator without [stage], at the foi
    stage: the default iterator is used. *)
Lemma get_functions_iterate_custom_witness :
  Dispatch.get_functions "foi" ()
    (Stages.iterate_custom Samples2.iterate_default
       (Some (Samples2.iterate_mine, false)))
    (Stages.extractor Samples2.plugins) (Stages.mixer Samples2.plugins)
    (Stages.mover Samples2.plugins) ()
  = (Ok ["move_foi"; "default_foi"; "mix_foi"; "extract_foi"], ()).
Proof.
  etrans.
  - apply (proj1 (get_functions_iterate_custom "foi" ()
                    Samples2.iterate_default Samples2.iterate_mine
                    (Stages.extractor Samples2.plugins)
                    (Stages.mixer Samples2.plugins)
                    (Stages.mover Samples2.plugins) false ()));
      [discriminate | reflexivity].
  - reflexivity.
Defined.

(** Instance of X18: the infections of two subnets. *)
Lemma Infections_build_cases_witness :
  ∃ inf,
    Outbreak.Infections_build Samples2.zeros Samples2.zeros None
      (Some Samples2.two_subnets) = Ok inf
    ∧ Seeding.subinfs inf = None.
Proof.
  assert (E : ∃ inf,
            Outbreak.Infections_build Samples2.zeros Samples2.zeros None
              (Some Samples2.two_subnets) = Ok inf)
    by (eexists; vm_compute; reflexivity).
  destruct E as [inf E]. exists inf. split; [exact E |].
  exact (proj1 (proj2 (proj2 (Infections_build_cases Samples2.zeros
                                Samples2.zeros None
                                (Some Samples2.two_subnets))) inf E)).
Defined.

(** Instance of X19: a seed for those two subnets. *)
Lemma advance_additional_on_built_networks_witness :
  ∃ inf,
    Outbreak.Infections_build Samples2.zeros Samples2.zeros None
      (Some Samples2.two_subnets) = Ok inf
    ∧ is_ok (Seeding.advance_additional Inputs.two_node_index
               Inputs.no_demographics Inputs.themeless
               (Seeding.ANetworks Samples2.two_subnets) 10 inf
               [Seeding.mkSeed 10 2 3 None] []).1 = false.
Proof.
  assert (E : ∃ inf,
            Outbreak.Infections_build Samples2.zeros Samples2.zeros None
              (Some Samples2.two_subnets) = Ok inf)
    by (eexists; vm_compute; reflexivity).
  destruct E as [inf E]. exists inf. split; [exact E |].
  exact (advance_additional_on_built_networks Samples2.zeros Samples2.zeros
           Inputs.two_node_index Inputs.no_demographics Inputs.themeless
           Samples2.two_subnets inf 10 (Seeding.mkSeed 10 2 3 None) [] []
           E eq_refl).
Defined.

(** Instance of X20: a disease of four stages is valid. *)
Lemma validate_cases_witness :
  Outbreak._validate Samples2.ncov = Ok ().
Proof.
  apply (proj2 (proj2 (validate_cases Samples2.ncov))).
  eexists _, _, _, _. split; [reflexivity |]. repeat split.
Defined.

(** Instance of X21: line 1 of a file is never read. *)
Lemma read_file_keeps_witness :
  Outbreak.read_file Samples2.digit ["1,2,3,4,5"; "5,4,3,2,1"] 1
    (Outbreak.mkParameters (Some Samples2.ncov))
  = (Raise ValueError, Outbreak.mkParameters (Some Samples2.ncov)).
Proof.
  apply (proj1 (read_file_keeps Samples2.digit ["1,2,3,4,5"; "5,4,3,2,1"] 1
                  (Outbreak.mkParameters (Some Samples2.ncov)))).
  discriminate.
Defined.

(** Instance of X22: five digits for a disease of four stages. *)
Lemma read_file_first_line_witness :
  Outbreak.read_file Samples2.digit ["1,2,3,4,5"] 0
    (Outbreak.mkParameters (Some Samples2.ncov))
  = (Ok (),
     Outbreak.mkParameters
       (Some (Outbreak.mkDisease (Some [0; 0; 1; 2]%Q) (Some [1; 3; 4; 5]%Q)
                (Some [0; 0; 0; 0]%Q) (Some [1; 1; 1; 0]%Q)))).
Proof.
  apply (read_file_first_line Samples2.digit ["1,2,3,4,5"]
           (Outbreak.mkParameters (Some Samples2.ncov)) Samples2.ncov
           [0; 0; 1; 1]%Q [1; 1; 1; 0]%Q "1" "2" "3" "4" "5" 1 2 3 4 5);
    try reflexivity; cbn; lia.
Defined.

(** Instance of X24: five seeds and then three into ward 2, which has
    four susceptibles. *)
Lemma advance_additional_never_negative_witness :
  ∃ net',
    Seeding.st_network
      (Seeding.advance_additional Inputs.two_node_index
         Inputs.no_demographics Inputs.themed
         (Seeding.ANetwork Inputs.small_network) 10 Inputs.small_infections
         [Seeding.mkSeed 10 2 5 None; Seeding.mkSeed 10 2 3 None] []).2
    = Seeding.ANetwork net'
    ∧ Forall (Qle 0) (play_suscept (nodes net')).
Proof.
  assert (H : Forall (Qle 0) (play_suscept (nodes Inputs.small_network))).
  { repeat (constructor; [unfold Qle; cbn; lia |]). constructor. }
  destruct (advance_additional_never_negative Inputs.two_node_index
              Inputs.no_demographics Inputs.themed Inputs.small_network 10
              Inputs.small_infections
              [Seeding.mkSeed 10 2 5 None; Seeding.mkSeed 10 2 3 None] [] H)
    as (net' & Hnet & _ & Hnn & _).
  exists net'. split; [exact Hnet | exact Hnn].
Defined.

(** Instance of X25: three seeds into ward 2: fourteen individuals before
    and after. *)
Lemma advance_additional_conserves_witness :
  ∃ s' net',
    Seeding.advance_additional Inputs.two_node_index Inputs.no_demographics
      Inputs.themeless
      (Seeding.ANetwork Inputs.small_network) 10 Inputs.small_infections
      [Seeding.mkSeed 10 2 3 None] [] = (Ok (), s')
    ∧ Seeding.st_network s' = Seeding.ANetwork net'
    ∧ (foldr Qplus 0 (play_suscept (nodes net'))
       + inject_Z (foldr Z.add 0%Z
                     (hd [] (Seeding.play (Seeding.st_infections s'))))
       == 14)%Q.
Proof.
  assert (E : ∃ s',
            Seeding.advance_additional Inputs.two_node_index
              Inputs.no_demographics Inputs.themeless
              (Seeding.ANetwork Inputs.small_network)
              10 Inputs.small_infections [Seeding.mkSeed 10 2 3 None] []
            = (Ok (), s'))
    by (eexists; vm_compute; reflexivity).
  destruct E as [s' E].
  destruct (advance_additional_conserves Inputs.two_node_index
              Inputs.no_demographics Inputs.themeless Inputs.small_network 10
              Inputs.small_infections [Seeding.mkSeed 10 2 3 None] [] s' E)
    as (net' & Hnet & Hsum).
  exists s', net'. split; [exact E |]. split; [exact Hnet |].
  rewrite Hsum. vm_compute. reflexivity.
Defined.

(** Instance of X26: in setup mode a custom mixer without [setup] is
    left out. *)
Lemma mix_custom_setup_without_argument_witness :
  Mixer.mix_custom Samples.merge_core Samples.mix_matrix false true ()
  = Ok ["merge_core_foi"].
Proof.
  exact (proj2 (mix_custom_setup_without_argument Samples.merge_core
                  Samples.mix_matrix ()) (Some ["merge_core_foi"]) eq_refl).
Defined.

(** Instance of X27: the core function in front of the custom one. *)
Lemma mix_custom_returns_witness :
  ∃ core custom,
    Samples.merge_core false () = Ok core
    ∧ Samples.mix_matrix false () = Ok custom
    ∧ default [] custom `suffix_of` ["merge_core_foi"; "merge_matrix"]
    ∧ NoDup ["merge_core_foi"; "merge_matrix"].
Proof.
  assert (E : Mixer.mix_custom Samples.merge_core Samples.mix_matrix false
                false () = Ok ["merge_core_foi"; "merge_matrix"])
    by (vm_compute; reflexivity).
  destruct (mix_custom_returns Samples.merge_core Samples.mix_matrix false
              false () ["merge_core_foi"; "merge_matrix"] E)
    as (core & custom & Hcore & Hcustom & _ & Hsuffix & Hnodup).
  exists core, custom. split; [exact Hcore |]. split; [exact Hcustom |].
  split; [exact Hsuffix |].
  apply Hnodup.
  - injection Hcore as <-. apply NoDup_singleton.
  - injection Hcustom as <-. apply NoDup_singleton.
Defined.

(** Instance of X17: four threads with a switch at two: the parallel
    function is called. *)
Lemma call_function_on_network_choice_witness :
  Stages.call_function_on_network (Seeding.ANetwork Inputs.small_network)
    (Some (fun _ _ w => (Ok (), w ++ ["serial"])))
    (Some (fun _ _ w => (Ok (), w ++ ["parallel"]))) 4 2 []
  = (Ok (), ["parallel"]).
Proof.
  assert (H : 2 ≤ 4) by lia.
  exact (proj1 (proj2 (call_function_on_network_choice Inputs.small_network
                         (Some (fun _ _ w => (Ok (), w ++ ["serial"])))
                         (Some (fun _ _ w => (Ok (), w ++ ["parallel"])))
                         4 2 []))
           (fun _ _ w => (Ok (), w ++ ["parallel"])) eq_refl
           (or_intror H)).
Defined.

